(** * SpidyMQ client connection (lib/connection.js)

    A shallow embedding of the [Connection] class: the connectivity flag, the
    subscriber routing table, the six public operations, the two response
    handlers every broker request registers, and the inbound dispatcher
    [_handleMessage].

    Modelling decisions, all of them visible in the definitions below:
    - [_subscribers] is a plain JavaScript object used as a dictionary.  Its
      own properties are a [gmap string callback]; its prototype is
      [Object.prototype] until an assignment to ['__proto__'] replaces it.
      Two names are therefore not dictionary keys: the membership test is the
      method [hasOwnProperty] looked up on the table itself, so an own
      property of that name is called in its place, and an assignment to
      ['__proto__'] sets the prototype and creates no own property.
    - A function value is a [callback] with an identity and the value it
      returns; calling one appends a [Call] to the world's log.  It is taken
      to be an ordinary function: it returns, it has no properties beyond
      those every function has, and it leaves the connection alone while it
      runs inside the membership test.  Every other callback is called in
      tail position of the method or handler that calls it, so whatever it
      does next to the connection is a later step of the world.
    - Calling a property that is not the table's own (anything the prototype
      chain provides, or [undefined]) is the [Native] result: the model does
      not say whether the built-in returns or throws.
    - [request.post(..).on('response', f).on('error', g)] appends a [request]
      to the world's outbox, carrying the pair of closures as a [handler].
      The transport may later run any registered handler with a [reply]; the
      model does not assume it does so at most once.
    - [throw] is the [Throw] result of the monad [M]; the world that comes
      with it is the world at the moment of the throw. *)

From Stdlib Require Import ZArith String Ascii.
From stdpp Require Import base option list gmap strings relations.

Local Open Scope string_scope.
Local Open Scope Z_scope.

(** ** JavaScript values *)

(** An [Error] object.  [Error msg] is [new Error(msg)] built by the
    connection; [TransportError code] is the error object the request library
    hands to an ['error'] listener; [TypeError] is the one the engine throws. *)
Inductive error : Type :=
  | Error (message : string)
  | TransportError (code : string)
  | TypeError.

#[warnings="-register-all"] Inductive value : Type :=
  | VUndefined
  | VNull
  | VBool (b : bool)
  | VNum (n : Z)
  | VStr (s : string)
  | VError (e : error)
  | VObj (fields : list (string * value)).

(** A function value, known by its identity: [Fn id] returns [undefined],
    [FnReturning id returns] returns [returns args] when called with
    [args]. *)
Inductive callback : Type :=
  | Fn (id : nat)
  | FnReturning (id : nat) (returns : list value → value).

Definition returned (f : callback) (args : list value) : value :=
  match f with
  | Fn _ => VUndefined
  | FnReturning _ returns => returns args
  end.

#[global] Instance error_eq_dec : EqDecision error.
Proof. solve_decision. Defined.

(** [!x] for an optional string argument: [null], [undefined] and [''] are
    the falsy ones. *)
Definition falsy_string (x : option string) : bool :=
  match x with
  | None => true
  | Some s => bool_decide (s = "")
  end.

(** [x || d] for an optional string. *)
Definition or_string (x : option string) (d : string) : string :=
  match x with
  | Some s => if bool_decide (s = "") then d else s
  | None => d
  end.

(** [o.p] for a value: own data property of an object literal, [undefined]
    otherwise. *)
Fixpoint get_field (p : string) (fields : list (string * value)) : value :=
  match fields with
  | [] => VUndefined
  | (k, v) :: rest => if bool_decide (k = p) then v else get_field p rest
  end.

Definition get_prop (o : value) (p : string) : value :=
  match o with
  | VObj fields => get_field p fields
  | _ => VUndefined
  end.

(** Truthiness of a value, as used by [options || {}]. *)
Definition truthy (v : value) : bool :=
  match v with
  | VUndefined | VNull => false
  | VBool b => b
  | VNum n => negb (n =? 0)
  | VStr s => negb (bool_decide (s = ""))
  | VError _ | VObj _ => true
  end.

(** ** Strings: [split('/')], [pop()], [slice(0, -1)] *)

(** [s.split(sep)] for a one-character separator: never empty, [''] splits
    into [['']]. *)
Fixpoint split (sep : ascii) (s : string) : list string :=
  match s with
  | EmptyString => [EmptyString]
  | String c s' =>
      if bool_decide (c = sep) then EmptyString :: split sep s'
      else match split sep s' with
           | [] => [String c EmptyString]
           | x :: xs => String c x :: xs
           end
  end.

(** [a.pop()] as a value: the last element, [None] for [undefined]. *)
Definition pop (a : list string) : option string := last a.

(** [a.join(sep)] *)
Fixpoint join (sep : ascii) (a : list string) : string :=
  match a with
  | [] => ""
  | x :: rest =>
      match rest with
      | [] => x
      | _ :: _ => x +:+ String sep (join sep rest)
      end
  end.

(** The key a possibly-undefined string is looked up under. *)
Definition to_key (x : option string) : string := default "undefined" x.

(** [s[s.length - 1] === '/' ? s.slice(0, -1) : s] *)
Definition strip_trailing_slash (s : string) : string :=
  match String.get (String.length s - 1) s with
  | Some c =>
      if bool_decide (c = "/"%char)
      then String.substring 0 (String.length s - 1) s
      else s
  | None => s
  end.

(** ** The connection object *)

Record Config : Type := mkConfig {
  serverUrl : option string;
  mountPath : option string;
  useBodyParser : option bool
}.

(** What the constructor registers on its router. *)
Record Router : Type := mkRouter {
  json_parser_at : option string;
  post_route : string
}.

(** [_subscribers] holds the own properties of the routing table;
    [_subscribers_proto] is its prototype when it is no longer
    [Object.prototype]. *)
Record Connection : Type := mkConnection {
  _baseUrl : string;
  _notifyBaseUrl : string;
  _subscribers : gmap string callback;
  _subscribers_proto : option callback;
  _connected : bool;
  router : Router
}.

Definition set_connected (b : bool) (c : Connection) : Connection :=
  mkConnection (_baseUrl c) (_notifyBaseUrl c) (_subscribers c)
               (_subscribers_proto c) b (router c).

Definition set_subscribers (s : gmap string callback) (c : Connection)
  : Connection :=
  mkConnection (_baseUrl c) (_notifyBaseUrl c) s
               (_subscribers_proto c) (_connected c) (router c).

Definition set_subscribers_proto (p : option callback) (c : Connection)
  : Connection :=
  mkConnection (_baseUrl c) (_notifyBaseUrl c) (_subscribers c)
               p (_connected c) (router c).

(** [new Connection(url, config)] *)
Definition new_Connection (url : string) (config : option Config)
  : error + Connection :=
  match config with
  | None =>
      inl (Error "Cannot create a connection without the proper configuration")
  | Some cfg =>
      if falsy_string (serverUrl cfg)
      then inl (Error
        "Cannot create a connection without knowing our local server url")
      else
        let server := strip_trailing_slash (to_key (serverUrl cfg)) in
        let mount := or_string (mountPath cfg) "/spidymq" in
        let messagePath := mount ++ "/:channel" in
        let parse := negb (bool_decide (useBodyParser cfg = Some false)) in
        inr {| _baseUrl := url;
               _notifyBaseUrl := server ++ mount;
               _subscribers := ∅;
               _subscribers_proto := None;
               _connected := false;
               router := {| json_parser_at :=
                              if parse then Some mount else None;
                            post_route := messagePath |} |}
  end.

(** ** The world around a connection *)

(** The two listeners an operation attaches to its request. *)
Inductive handler : Type :=
  | OnCreate (done : option callback)
  | OnSubscribe (channelName : string) (done : option callback)
  | OnUnsubscribe (done : option callback)
  | OnPublish (done : option callback).

Record request : Type := mkRequest {
  url : string;
  body : value;
  listeners : handler
}.

(** One call of a function value with its arguments. *)
Inductive call : Type := Call (f : callback) (args : list value).

Record World : Type := mkWorld {
  conn : Connection;
  outbox : list request;
  calls : list call
}.

(** What the broker or the transport answers to a request. *)
Inductive reply : Type :=
  | Response (statusCode : Z)
  | Failure (code : string).

(** The HTTP response object of an inbound message. *)
Record ServerResponse : Type := mkRes {
  statusCode : Z;
  ended : nat
}.

Record IncomingMessage : Type := mkReq {
  req_url : string;
  req_body : value
}.

(** ** A state and exception monad *)

(** How a method or listener ends: it returns, it throws, or control
    passes to a property the routing table does not own ([Native]), where the
    model stops. *)
Inductive result (A : Type) : Type :=
  | Return (a : A)
  | Throw (e : error)
  | Native (property : string).
Arguments Return {A} a.
Arguments Throw {A} e.
Arguments Native {A} property.

Definition M (A : Type) : Type := World → result A * World.

#[global] Instance M_ret : MRet M := λ A a w, (Return a, w).
#[global] Instance M_bind : MBind M := λ A B f m w,
  match m w with
  | (Return a, w') => f a w'
  | (Throw e, w') => (Throw e, w')
  | (Native p, w') => (Native p, w')
  end.

Definition throw {A : Type} (e : error) : M A := λ w, (Throw e, w).

Definition native {A : Type} (p : string) : M A := λ w, (Native p, w).

(** [this] *)
Definition this : M Connection := λ w, (Return (conn w), w).

Definition update (f : Connection → Connection) : M unit := λ w,
  (Return (), mkWorld (f (conn w)) (outbox w) (calls w)).

(** [request.post({url, json: true, body}).on('response', ..).on('error', ..)] *)
Definition post (u : string) (b : value) (h : handler) : M unit := λ w,
  (Return (), mkWorld (conn w) (outbox w ++ [mkRequest u b h]) (calls w)).

(** [f(args)] *)
Definition invoke (f : callback) (args : list value) : M unit := λ w,
  (Return (), mkWorld (conn w) (outbox w) (calls w ++ [Call f args])).

(** [done(args)] after [done = done || function() {}] *)
Definition call_done (done : option callback) (args : list value) : M unit :=
  match done with
  | Some f => invoke f args
  | None => mret ()
  end.

(** The world an operation leaves behind, whether it returned or threw. *)
Definition exec {A : Type} (m : M A) (w : World) : World := (m w).2.

(** ** The class [Connection] *)

(** [Object.prototype.hasOwnProperty] on the routing table. *)
Definition hasOwnProperty (o : gmap string callback) (k : string) : bool :=
  bool_decide (is_Some (o !! k)).

(** [this._subscribers.hasOwnProperty(k)]: the method is looked up on the
    table, so an own property of that name is called with [k] and its return
    value is the answer; the built-in answers otherwise. *)
Definition call_hasOwnProperty (k : string) : M bool :=
  c ← this;
  match _subscribers c !! "hasOwnProperty" with
  | Some f => invoke f [VStr k];; mret (truthy (returned f [VStr k]))
  | None => mret (hasOwnProperty (_subscribers c) k)
  end.

(** The properties of every function that cannot be assigned through an
    object that inherits them. *)
Definition read_only_of_functions : list string :=
  ["length"; "name"; "arguments"; "caller"].

(** [this._subscribers[k] = f] in strict mode.  ['__proto__'] is the accessor
    of [Object.prototype]: the function becomes the prototype.  An own
    property is overwritten.  A new name becomes an own property, unless the
    prototype is a function and has it read-only. *)
Definition assign_subscriber (k : string) (f : callback) : M unit :=
  c ← this;
  if bool_decide (k = "__proto__")
  then update (set_subscribers_proto (Some f))
  else if hasOwnProperty (_subscribers c) k
  then update (λ c, set_subscribers (<[k := f]> (_subscribers c)) c)
  else
    match _subscribers_proto c with
    | Some _ =>
        if bool_decide (k ∈ read_only_of_functions) then throw TypeError
        else update (λ c, set_subscribers (<[k := f]> (_subscribers c)) c)
    | None => update (λ c, set_subscribers (<[k := f]> (_subscribers c)) c)
    end.

(** The enumerable keys of the routing table.  The order in which [for .. in]
    visits them is not modelled: this is the order of [map_to_list], and no
    statement below depends on it. *)
Definition own_keys (o : gmap string callback) : list string :=
  (map_to_list o).*1.

(** [delete this._subscribers[k]] *)
Definition delete_subscriber (k : string) : M unit :=
  update (λ c, set_subscribers (delete k (_subscribers c)) c).

(** [isConnected()] *)
Definition isConnected : M bool := λ w, (Return (_connected (conn w)), w).

(** [connect(done)] *)
Definition connect (done : option callback) : M unit :=
  c ← this;
  if _connected c then throw (Error "Connection already established")
  else
    update (set_connected true);;
    call_done done [VNull; VBool true].

(** [_handleResponse(response, done)], on [response.statusCode]. *)
Definition _handleResponse (status : Z) (done : option callback) : M unit :=
  let '(error, result) :=
    if status =? 200 then (VNull, VBool true)
    else if status =? 304 then (VNull, VBool false)
    else if status =? 400 then (VError (Error "Bad request"), VNull)
    else (VError (Error "Server error"), VNull) in
  call_done done [error; result].

(** [createChannel(name, options, done)] *)
Definition createChannel (name : option string) (options : value)
    (done : option callback) : M unit :=
  let options := if truthy options then options else VObj [] in
  c ← this;
  if negb (_connected c) then throw (Error "Connection not established")
  else
    match name with
    | None | Some EmptyString =>
        throw (Error "Cannot create a channel without a name")
    | Some name =>
        let req := VObj [("name", VStr name);
                         ("type", get_prop options "type")] in
        post (_baseUrl c ++ "/channel") req (OnCreate done)
    end.

(** [subscribeChannel(channelName, notifyFn, done)] *)
Definition subscribeChannel (channelName : option string)
    (notifyFn : option callback) (done : option callback) : M unit :=
  c ← this;
  if negb (_connected c) then throw (Error "Connection not established")
  else
    match channelName with
    | None | Some EmptyString =>
        throw (Error "Cannot subscribe to a channel without a name")
    | Some channelName =>
        match notifyFn with
        | None =>
            throw (Error "Cannot subscribe to a channel with a notify callback")
        | Some notifyFn =>
            subscribed ← call_hasOwnProperty channelName;
            if (subscribed : bool)
            then throw (Error "Already subscribed to this channel")
            else
              assign_subscriber channelName notifyFn;;
              let req :=
                VObj [("name", VStr channelName);
                      ("notifyUrl",
                       VStr (_notifyBaseUrl c ++ "/" ++ channelName))] in
              post (_baseUrl c ++ "/subscribe") req
                   (OnSubscribe channelName done)
        end
    end.

(** [unsubscribeChannel(channelName, done)] *)
Definition unsubscribeChannel (channelName : option string)
    (done : option callback) : M unit :=
  c ← this;
  if negb (_connected c) then throw (Error "Connection not established")
  else
    match channelName with
    | None | Some EmptyString =>
        throw (Error "Cannot unsubscibe from a channel without a name")
    | Some channelName =>
        delete_subscriber channelName;;
        let req :=
          VObj [("name", VStr channelName);
                ("notifyUrl",
                 VStr (_notifyBaseUrl c ++ "/" ++ channelName))] in
        post (_baseUrl c ++ "/unsubscribe") req (OnUnsubscribe done)
    end.

(** [for (channelName in this._subscribers) body(channelName)]: the keys are
    those present when the loop starts, and a key deleted before its turn is
    skipped. *)
Fixpoint for_in_subscribers (keys : list string) (body : string → M unit)
  : M unit :=
  match keys with
  | [] => mret ()
  | k :: rest =>
      c ← this;
      (if hasOwnProperty (_subscribers c) k then body k else mret ());;
      for_in_subscribers rest body
  end.

(** [disconnect(done)] *)
Definition disconnect (done : option callback) : M unit :=
  c ← this;
  if negb (_connected c) then throw (Error "Connection already disconnected")
  else
    for_in_subscribers (own_keys (_subscribers c))
      (λ channelName, unsubscribeChannel (Some channelName) None);;
    update (set_connected false);;
    call_done done [VNull; VBool true].

(** [publishMessage(channelName, content, done)] *)
Definition publishMessage (channelName : option string) (content : value)
    (done : option callback) : M unit :=
  c ← this;
  if negb (_connected c) then throw (Error "Connection not established")
  else
    match channelName with
    | None | Some EmptyString =>
        throw (Error "Cannot publish a message to a channel without a name")
    | Some channelName =>
        match content with
        | VNull | VUndefined =>
            throw (Error "Cannot publish null or undefined content")
        | _ =>
            let req := VObj [("channel", VStr channelName);
                             ("content", content)] in
            post (_baseUrl c ++ "/message") req (OnPublish done)
        end
    end.

(** The listeners of a request, run by the transport with its [reply]:
    the ['response'] listener on [Response], the ['error'] listener on
    [Failure]. *)
Definition fire (h : handler) (r : reply) : M unit :=
  match h, r with
  | OnCreate done, Response status => _handleResponse status done
  | OnCreate done, Failure code =>
      call_done done [VError (TransportError code)]
  | OnSubscribe channelName done, Response status =>
      (if negb (status =? 200) && negb (status =? 304)
       then delete_subscriber channelName
       else mret ());;
      _handleResponse status done
  | OnSubscribe channelName done, Failure _ =>
      delete_subscriber channelName;;
      call_done done [VError (Error "Unable to subscribe to channel")]
  | OnUnsubscribe done, Response status => _handleResponse status done
  | OnUnsubscribe done, Failure _ =>
      call_done done [VError (Error "Unable to unsubscribe from channel")]
  | OnPublish done, Response status => _handleResponse status done
  | OnPublish done, Failure code =>
      call_done done [VError (TransportError code)]
  end.

(** [res.end()] and [res.statusCode = s] *)
Definition res_end (res : ServerResponse) : ServerResponse :=
  mkRes (statusCode res) (S (ended res)).

Definition res_status (s : Z) (res : ServerResponse) : ServerResponse :=
  mkRes s (ended res).

(** [_handleMessage(req, res)]; the response object is threaded through and
    returned as the method left it. *)
Definition _handleMessage (req : IncomingMessage) (res : ServerResponse)
  : M ServerResponse :=
  c ← this;
  let res := if negb (_connected c) then res_end res else res in
  let channel := to_key (pop (split "/" (req_url req))) in
  let message := req_body req in
  subscribed ← call_hasOwnProperty channel;
  if negb subscribed
  then mret (res_end (res_status 400 res))
  else
    match _subscribers c !! channel with
    | Some notifyFn => invoke notifyFn [message];; mret res
    | None => native channel
    end.

(** ** Runs of a connection *)

(** What the application can ask of a connection. *)
Inductive operation : Type :=
  | Connect (done : option callback)
  | Disconnect (done : option callback)
  | CreateChannel (name : option string) (options : value)
      (done : option callback)
  | SubscribeChannel (channelName : option string)
      (notifyFn : option callback) (done : option callback)
  | UnsubscribeChannel (channelName : option string) (done : option callback)
  | PublishMessage (channelName : option string) (content : value)
      (done : option callback).

Definition run (o : operation) : M unit :=
  match o with
  | Connect done => connect done
  | Disconnect done => disconnect done
  | CreateChannel name options done => createChannel name options done
  | SubscribeChannel channelName notifyFn done =>
      subscribeChannel channelName notifyFn done
  | UnsubscribeChannel channelName done => unsubscribeChannel channelName done
  | PublishMessage channelName content done =>
      publishMessage channelName content done
  end.

(** One step of the world: the application calls a method (which returns or
    throws), the transport runs the listeners of a request that was sent, or
    the HTTP layer delivers an inbound message. *)
Inductive step : World → World → Prop :=
  | step_call o w :
      step w (exec (run o) w)
  | step_reply rq r w :
      rq ∈ outbox w →
      step w (exec (fire (listeners rq) r) w)
  | step_message req res w :
      step w (exec (_handleMessage req res) w).

(** The world right after [new Connection(url, config)] returned [c]. *)
Definition fresh (c : Connection) : World := mkWorld c [] [].

Definition constructed (w : World) : Prop :=
  ∃ url config c, new_Connection url config = inr c ∧ w = fresh c.

Definition reachable (w : World) : Prop :=
  ∃ w0, constructed w0 ∧ rtc step w0 w.

(** ** Vocabulary of the properties *)

(** The outcome a completion callback is told, in the terms of the response
    table: success with a boolean, a bad request, or a broker failure. *)
Inductive outcome : Type :=
  | Success (result : bool)
  | BadRequestError
  | BrokerError.

(** The response table as the specification words it: 200 is success(true),
    304 is success(false), 400 is a bad request, every other status and every
    transport failure is a broker error. *)
Definition spec_outcome (r : reply) : outcome :=
  match r with
  | Response 200 => Success true
  | Response 304 => Success false
  | Response 400 => BadRequestError
  | Response _ => BrokerError
  | Failure _ => BrokerError
  end.

(** The error objects of the code that stand for a reply of the broker or of
    the transport, read in those terms.  An error of a validation is none of
    them. *)
Definition error_outcome (e : error) : option outcome :=
  match e with
  | TransportError _ => Some BrokerError
  | TypeError => None
  | Error msg =>
      if bool_decide (msg = "Bad request") then Some BadRequestError
      else if bool_decide (msg = "Server error") then Some BrokerError
      else if bool_decide (msg = "Unable to subscribe to channel")
      then Some BrokerError
      else if bool_decide (msg = "Unable to unsubscribe from channel")
      then Some BrokerError
      else None
  end.

(** The arguments of an error-first callback, read as an outcome. *)
Definition outcome_of_args (args : list value) : option outcome :=
  match args with
  | VNull :: VBool b :: _ => Some (Success b)
  | VError e :: _ => error_outcome e
  | _ => None
  end.

(** The four operations that send a request to the broker. *)
Definition broker_directed (o : operation) : bool :=
  match o with
  | Connect _ | Disconnect _ => false
  | _ => true
  end.

(** The completion callback an operation was given. *)
Definition done_of (o : operation) : option callback :=
  match o with
  | Connect done | Disconnect done | CreateChannel _ _ done
  | SubscribeChannel _ _ done | UnsubscribeChannel _ done
  | PublishMessage _ _ done => done
  end.

(** The calls a completion callback receives with [args]. *)
Definition done_calls (done : option callback) (args : list value)
  : list call :=
  match done with
  | Some f => [Call f args]
  | None => []
  end.

(** A reply that does not confirm a subscription. *)
Definition rejects (r : reply) : Prop :=
  match r with
  | Response status => status ≠ 200 ∧ status ≠ 304
  | Failure _ => True
  end.

(** The request [unsubscribeChannel(k)] sends when it is given no callback. *)
Definition unsubscribe_request (c : Connection) (k : string) : request :=
  mkRequest (_baseUrl c +:+ "/unsubscribe")
    (VObj [("name", VStr k);
           ("notifyUrl", VStr (_notifyBaseUrl c +:+ "/" +:+ k))])
    (OnUnsubscribe None).

(** Content that [publishMessage] accepts. *)
Definition defined (v : value) : bool :=
  match v with
  | VNull | VUndefined => false
  | _ => true
  end.


(** The channel an inbound message is addressed to. *)
Definition channel_of (req : IncomingMessage) : string :=
  to_key (pop (split "/" (req_url req))).

(** A string without the character [c]. *)
Fixpoint free_of (c : ascii) (s : string) : Prop :=
  match s with
  | EmptyString => True
  | String a s' => a ≠ c ∧ free_of c s'
  end.

(** Every key of the routing table is a name [subscribeChannel] accepts, and
    a connection that is not connected routes nothing. *)
Definition consistent (w : World) : Prop :=
  (∀ k, is_Some (_subscribers (conn w) !! k) → k ≠ "") ∧
  (_connected (conn w) = false → _subscribers (conn w) = ∅).

(** The completion callback the listeners of a request close over. *)
Definition handler_done (h : handler) : option callback :=
  match h with
  | OnCreate done | OnSubscribe _ done | OnUnsubscribe done
  | OnPublish done => done
  end.

(** An action that keeps a consistent world consistent, whether it returns
    or throws. *)
Definition preserves {A : Type} (m : M A) : Prop :=
  ∀ w, consistent w → consistent (exec m w).

(** ** A connection to run the examples on *)

Definition example_config : Config :=
  mkConfig (Some "http://localhost:3001/") None None.

Definition example_connection : Connection :=
  {| _baseUrl := "http://localhost:3000/";
     _notifyBaseUrl := "http://localhost:3001/spidymq";
     _subscribers := ∅;
     _subscribers_proto := None;
     _connected := false;
     router := {| json_parser_at := Some "/spidymq";
                  post_route := "/spidymq/:channel" |} |}.

Definition example_message : IncomingMessage :=
  mkReq "/spidymq/test" (VObj [("pizza", VStr "yum yum")]).

Definition example_response : ServerResponse := mkRes 0 0.

(** [connection.connect()] on the fresh connection. *)
Definition example_connected : World :=
  exec (run (Connect None)) (fresh example_connection).

(** Then [connection.subscribeChannel('test', notify, cb)]. *)
Definition example_subscribed : World :=
  exec (run (SubscribeChannel (Some "test") (Some (Fn 1)) (Some (Fn 2))))
       example_connected.


(** ** The routing table as an object *)

(** What the membership test of the code answers for [k], and the call it
    makes to get the answer. *)
Definition answers (c : Connection) (k : string) : bool :=
  match _subscribers c !! "hasOwnProperty" with
  | Some f => truthy (returned f [VStr k])
  | None => hasOwnProperty (_subscribers c) k
  end.

Definition shadow_calls (c : Connection) (k : string) : list call :=
  match _subscribers c !! "hasOwnProperty" with
  | Some f => [Call f [VStr k]]
  | None => []
  end.

(** A routing table that is a dictionary: its membership test is the
    built-in and its prototype is [Object.prototype]. *)
Definition plain (w : World) : Prop :=
  _subscribers (conn w) !! "hasOwnProperty" = None ∧
  _subscribers_proto (conn w) = None.

(** A channel name that is a key like any other. *)
Definition dictionary_key (k : string) : Prop :=
  k ≠ "__proto__" ∧ k ≠ "hasOwnProperty".

(** Whether the engine accepts [this._subscribers[k] = f]. *)
Definition assignable (c : Connection) (k : string) : bool :=
  bool_decide (k = "__proto__") || hasOwnProperty (_subscribers c) k ||
  match _subscribers_proto c with
  | Some _ => negb (bool_decide (k ∈ read_only_of_functions))
  | None => true
  end.

(** A call of one of the four operations sent to the broker that gets to
    send its request: it passes every check of the method as the code runs
    them, and its assignment, if it has one, is accepted. *)
Definition valid_call (o : operation) (w : World) : bool :=
  let c := conn w in
  match o with
  | Connect _ | Disconnect _ => false
  | CreateChannel name _ _ => _connected c && negb (falsy_string name)
  | SubscribeChannel channelName notifyFn _ =>
      _connected c && negb (falsy_string channelName) &&
      bool_decide (is_Some notifyFn) &&
      negb (answers c (to_key channelName)) &&
      assignable c (to_key channelName)
  | UnsubscribeChannel channelName _ =>
      _connected c && negb (falsy_string channelName)
  | PublishMessage channelName content _ =>
      _connected c && negb (falsy_string channelName) && defined content
  end.

(** Two subscriptions, the second to a channel named like the membership
    test: [subscribeChannel('A', a, cbA)], then
    [subscribeChannel('hasOwnProperty', h, cbH)]. *)
Definition example_shadowed : World :=
  exec (run (SubscribeChannel (Some "hasOwnProperty") (Some (Fn 3))
               (Some (Fn 4))))
    (exec (run (SubscribeChannel (Some "A") (Some (Fn 1)) (Some (Fn 2))))
          example_connected).

Definition example_message_A : IncomingMessage :=
  mkReq "/spidymq/A" (VObj [("pizza", VStr "yum yum")]).

(** [subscribeChannel('__proto__', f, cb)] on the connected example. *)
Definition example_proto : World :=
  exec (run (SubscribeChannel (Some "__proto__") (Some (Fn 1))
               (Some (Fn 2))))
       example_connected.

(** ** index.js *)

(** [createConnection(url, config)] *)
Definition createConnection (url : string) (config : option Config)
  : error + Connection :=
  new_Connection url config.

(** ** Vocabulary of the further properties *)

(** The fields of a connection that the constructor sets and no method
    assigns. *)
Definition same_config (c c' : Connection) : Prop :=
  _baseUrl c' = _baseUrl c ∧
  _notifyBaseUrl c' = _notifyBaseUrl c ∧
  router c' = router c.

(** The four shapes of request the class sends: the endpoint under the broker
    url, the body, and the listeners that go with them. *)
Inductive addressed (c : Connection) : request → Prop :=
  | to_channel name type done :
      addressed c
        (mkRequest (_baseUrl c +:+ "/channel")
           (VObj [("name", VStr name); ("type", type)]) (OnCreate done))
  | to_subscribe channelName done :
      addressed c
        (mkRequest (_baseUrl c +:+ "/subscribe")
           (VObj [("name", VStr channelName);
                  ("notifyUrl",
                   VStr (_notifyBaseUrl c +:+ "/" +:+ channelName))])
           (OnSubscribe channelName done))
  | to_unsubscribe channelName done :
      addressed c
        (mkRequest (_baseUrl c +:+ "/unsubscribe")
           (VObj [("name", VStr channelName);
                  ("notifyUrl",
                   VStr (_notifyBaseUrl c +:+ "/" +:+ channelName))])
           (OnUnsubscribe done))
  | to_message channelName content done :
      addressed c
        (mkRequest (_baseUrl c +:+ "/message")
           (VObj [("channel", VStr channelName); ("content", content)])
           (OnPublish done)).

(** The world with the entry of one channel taken out of the routing
    table. *)
Definition without (channelName : string) (w : World) : World :=
  mkWorld (set_subscribers (delete channelName (_subscribers (conn w)))
                           (conn w))
          (outbox w) (calls w).

(** What one step may do to the world: it keeps the configuration, sends
    only requests of the four shapes, and adds to the calls made; to a table
    that is a dictionary it adds at most one call. *)
Definition step_effect (w w' : World) : Prop :=
  same_config (conn w) (conn w') ∧
  (∃ sent, outbox w' = (outbox w ++ sent)%list ∧
           Forall (addressed (conn w)) sent) ∧
  (∃ new, calls w' = (calls w ++ new)%list ∧
          (plain w → (length new ≤ 1)%nat)).

(** An action that keeps the configuration, calls nothing and sends only
    requests of the four shapes. *)
Definition sends_only {A : Type} (m : M A) : Prop :=
  ∀ w, same_config (conn w) (conn (exec m w)) ∧
       calls (exec m w) = calls w ∧
       ∃ sent, outbox (exec m w) = (outbox w ++ sent)%list ∧
               Forall (addressed (conn w)) sent.

(** A call that does not subscribe to one of the two names that are no
    dictionary keys. *)
Definition ordinary (o : operation) : Prop :=
  match o with
  | SubscribeChannel (Some channelName) _ _ => dictionary_key channelName
  | _ => True
  end.

(** Unfolds the primitives of the monad in the goal and the hypotheses. *)
Ltac run_monad :=
  unfold exec, mbind, M_bind, mret, M_ret, this, update, throw, post, invoke,
    call_done, delete_subscriber, isConnected in *;
  simpl in *.

(** ** Strings *)

Section Split.
Variable sep : ascii.

Lemma split_not_nil s : split sep s ≠ [].
Proof.
  destruct s as [|c s]; simpl; [done|].
  case_bool_decide; [done|]. by destruct (split sep s).
Qed.

Lemma join_split s : join sep (split sep s) = s.
Proof.
  induction s as [|c s IH]; [done|].
  simpl. case_bool_decide as Hc.
  - subst c. pose proof (split_not_nil s) as Hne.
    destruct (split sep s) as [|x xs] eqn:E; [done|].
    change (String sep (join sep (x :: xs)) = String sep s). by rewrite IH.
  - pose proof (split_not_nil s) as Hne.
    destruct (split sep s) as [|x xs] eqn:E; [done|].
    destruct xs as [|y ys]; simpl in *; by rewrite <- IH.
Qed.

Lemma split_free s : Forall (free_of sep) (split sep s).
Proof.
  induction s as [|c s IH]; simpl.
  - by repeat constructor.
  - case_bool_decide as Hc.
    + by constructor.
    + destruct (split sep s) as [|x xs]; [by repeat constructor|].
      inversion IH; subst. by constructor.
Qed.

Lemma last_of_join (a : list string) :
  a ≠ [] →
  ∃ x, last a = Some x ∧
       (join sep a = x ∨ ∃ p, join sep a = p +:+ String sep x).
Proof.
  induction a as [|y a IH]; [done|]. intros _.
  destruct a as [|z a].
  - exists y. split; [done|]. by left.
  - destruct IH as (x & Hlast & Hjoin); [done|].
    exists x. split; [done|]. right.
    change (join sep (y :: z :: a))
      with (y +:+ String sep (join sep (z :: a))).
    destruct Hjoin as [-> | (p & ->)].
    + by exists y.
    + exists (y +:+ String sep p).
      clear. induction y as [|c y IHy]; [done|].
      change (String c (y +:+ String sep (p +:+ String sep x))
              = String c ((y +:+ String sep p) +:+ String sep x)).
      by rewrite IHy.
Qed.

(** [s.split(sep).pop()] is the part of [s] after its last [sep]. *)
Lemma pop_split s :
  ∃ x, pop (split sep s) = Some x ∧ free_of sep x ∧
       (s = x ∨ ∃ p, s = p +:+ String sep x).
Proof.
  destruct (last_of_join (split sep s) (split_not_nil s))
    as (x & Hlast & Hjoin).
  exists x. split; [done|]. split.
  - pose proof (split_free s) as Hall.
    rewrite Forall_forall in Hall. apply Hall.
    apply last_Some in Hlast as (l' & ->).
    apply elem_of_app. right. constructor.
  - by rewrite join_split in Hjoin.
Qed.
End Split.

(** ** Records and lookups *)

Lemma world_eta w : mkWorld (conn w) (outbox w) (calls w) = w.
Proof. by destruct w. Qed.

Lemma set_subscribers_id c : set_subscribers (_subscribers c) c = c.
Proof. by destruct c. Qed.

Lemma hasOwnProperty_true (o : gmap string callback) k :
  hasOwnProperty o k = true ↔ is_Some (o !! k).
Proof. unfold hasOwnProperty. by rewrite bool_decide_eq_true. Qed.

Lemma hasOwnProperty_false (o : gmap string callback) k :
  hasOwnProperty o k = false ↔ o !! k = None.
Proof.
  unfold hasOwnProperty.
  by rewrite bool_decide_eq_false, eq_None_not_Some.
Qed.

(** ** The response table *)

Lemma spec_outcome_other status :
  status ≠ 200 → status ≠ 304 → status ≠ 400 →
  spec_outcome (Response status) = BrokerError.
Proof.
  intros H200 H304 H400.
  destruct status as [|p|p]; [done| |done].
  do 9 (destruct p as [p|p|]; try done).
Qed.

Lemma _handleResponse_calls status done w :
  ∃ args,
    _handleResponse status done w
      = (Return (), mkWorld (conn w) (outbox w)
                            (calls w ++ done_calls done args)) ∧
    outcome_of_args args = Some (spec_outcome (Response status)).
Proof.
  unfold _handleResponse.
  destruct (Z.eqb_spec status 200) as [->|H200];
    [exists [VNull; VBool true]|
     destruct (Z.eqb_spec status 304) as [->|H304];
     [exists [VNull; VBool false]|
      destruct (Z.eqb_spec status 400) as [->|H400];
      [exists [VError (Error "Bad request"); VNull]|
       exists [VError (Error "Server error"); VNull]]]];
    (split; [destruct done; run_monad;
             rewrite ?app_nil_r, ?world_eta; done|]);
    try done.
  by rewrite spec_outcome_other.
Qed.

(** ** The operations, one by one *)

Lemma unsubscribeChannel_connected k done w :
  _connected (conn w) = true → k ≠ "" →
  unsubscribeChannel (Some k) done w
    = (Return (),
       mkWorld (set_subscribers (delete k (_subscribers (conn w))) (conn w))
               (outbox w ++ [mkRequest (_baseUrl (conn w) +:+ "/unsubscribe")
                  (VObj [("name", VStr k);
                         ("notifyUrl",
                          VStr (_notifyBaseUrl (conn w) +:+ "/" +:+ k))])
                  (OnUnsubscribe done)])
               (calls w)).
Proof.
  intros Hc Hk. unfold unsubscribeChannel. run_monad. rewrite Hc. simpl.
  by destruct k.
Qed.

(** The loop of [disconnect] over keys that are all present and distinct:
    every key is deleted and one request per key is sent, in turn. *)
Lemma for_in_unsubscribe keys : ∀ w,
  _connected (conn w) = true →
  NoDup keys →
  (∀ k, k ∈ keys → k ≠ "" ∧ is_Some (_subscribers (conn w) !! k)) →
  for_in_subscribers keys (λ k, unsubscribeChannel (Some k) None) w
    = (Return (),
       mkWorld
         (set_subscribers
            (foldl (λ m k, delete k m) (_subscribers (conn w)) keys) (conn w))
         (outbox w ++ (unsubscribe_request (conn w) <$> keys))
         (calls w)).
Proof.
  induction keys as [|k keys IH]; intros w Hc Hnd Hin.
  - simpl. run_monad.
    by rewrite app_nil_r, set_subscribers_id, world_eta.
  - apply NoDup_cons in Hnd as [Hk Hnd].
    destruct (Hin k) as [Hne Hsome]; [by left|].
    simpl. unfold mbind, M_bind at 1, this. simpl.
    apply hasOwnProperty_true in Hsome. rewrite Hsome.
    unfold mbind, M_bind at 1.
    rewrite unsubscribeChannel_connected by done.
    rewrite IH; simpl; [|done|done|].
    + unfold unsubscribe_request. simpl.
      by rewrite <- app_assoc.
    + intros k' Hk'. destruct (Hin k') as [? ?]; [by right|].
      split; [done|]. rewrite lookup_delete_ne; [done|].
      intros ->. done.
Qed.

Lemma lookup_foldl_delete (keys : list string) : ∀ (m : gmap string callback) i,
  foldl (λ m k, delete k m) m keys !! i
    = if decide (i ∈ keys) then None else m !! i.
Proof.
  induction keys as [|k keys IH]; intros m i.
  - case_decide as Hin; [by apply elem_of_nil in Hin|done].
  - change (foldl (λ m k, delete k m) (delete k m) keys !! i
            = if decide (i ∈ k :: keys) then None else m !! i).
    rewrite IH.
    destruct (decide (i ∈ keys)) as [Hin|Hin];
      destruct (decide (i ∈ k :: keys)) as [Hin'|Hin']; try done.
    + exfalso. apply Hin'. by right.
    + apply elem_of_cons in Hin' as [->|?]; [apply lookup_delete_eq|done].
    + apply lookup_delete_ne. intros ->. apply Hin'. by left.
Qed.

Lemma delete_own_keys (m : gmap string callback) :
  foldl (λ m k, delete k m) m (own_keys m) = ∅.
Proof.
  apply map_eq. intros i. rewrite lookup_foldl_delete, lookup_empty.
  case_decide as Hin; [done|].
  apply eq_None_not_Some. intros [f Hf]. apply Hin.
  unfold own_keys. apply list_elem_of_fmap. exists (i, f). split; [done|].
  by apply elem_of_map_to_list.
Qed.

Lemma own_keys_elements (m : gmap string callback) :
  own_keys m ≡ₚ elements (dom m).
Proof.
  unfold own_keys. apply NoDup_Permutation.
  - apply NoDup_fst_map_to_list.
  - apply NoDup_elements.
  - intros k. rewrite elem_of_elements, elem_of_dom, list_elem_of_fmap.
    split.
    + intros ([k' f] & -> & Hin). apply elem_of_map_to_list in Hin. by exists f.
    + intros [f Hf]. exists (k, f). split; [done|].
      by apply elem_of_map_to_list.
Qed.

(** [disconnect] on a connected, consistent world. *)
Lemma disconnect_connected done w :
  _connected (conn w) = true →
  (∀ k, is_Some (_subscribers (conn w) !! k) → k ≠ "") →
  disconnect done w
    = (Return (),
       mkWorld (set_connected false (set_subscribers ∅ (conn w)))
               (outbox w ++ (unsubscribe_request (conn w)
                               <$> own_keys (_subscribers (conn w))))
               (calls w ++ done_calls done [VNull; VBool true])).
Proof.
  intros Hc Hkeys. unfold disconnect.
  unfold mbind, M_bind at 1, this. simpl. rewrite Hc. simpl.
  unfold mbind, M_bind at 1.
  rewrite for_in_unsubscribe; [|done|apply NoDup_fst_map_to_list|].
  - rewrite delete_own_keys. destruct done; run_monad; [done|].
    by rewrite app_nil_r.
  - intros k Hk.
    assert (is_Some (_subscribers (conn w) !! k)) as Hs.
    { apply list_elem_of_fmap in Hk as ([k' f] & -> & Hin).
      apply elem_of_map_to_list in Hin. by exists f. }
    split; [by apply Hkeys|done].
Qed.

Lemma _handleResponse_conn status done w :
  conn (exec (_handleResponse status done) w) = conn w.
Proof.
  destruct (_handleResponse_calls status done w) as (args & Heq & _).
  unfold exec. by rewrite Heq.
Qed.

Lemma call_done_conn done args w :
  conn (exec (call_done done args) w) = conn w.
Proof. by destruct done. Qed.

Lemma call_hasOwnProperty_eq k w :
  call_hasOwnProperty k w
    = (Return (answers (conn w) k),
       mkWorld (conn w) (outbox w) (calls w ++ shadow_calls (conn w) k)).
Proof.
  unfold call_hasOwnProperty, answers, shadow_calls. run_monad.
  destruct (_subscribers (conn w) !! "hasOwnProperty"); simpl; [done|].
  by rewrite app_nil_r, world_eta.
Qed.

Lemma answers_plain c k :
  _subscribers c !! "hasOwnProperty" = None →
  answers c k = hasOwnProperty (_subscribers c) k ∧ shadow_calls c k = [].
Proof. intros Hno. unfold answers, shadow_calls. by rewrite Hno. Qed.

(** The dispatcher in every world. *)
Lemma _handleMessage_eq req res w :
  _handleMessage req res w
    = let res' := if negb (_connected (conn w)) then res_end res else res in
      let asked :=
        mkWorld (conn w) (outbox w)
                (calls w ++ shadow_calls (conn w) (channel_of req)) in
      if negb (answers (conn w) (channel_of req))
      then (Return (res_end (res_status 400 res')), asked)
      else match _subscribers (conn w) !! channel_of req with
           | Some notifyFn =>
               (Return res',
                mkWorld (conn w) (outbox w)
                        (calls asked ++ [Call notifyFn [req_body req]]))
           | None => (Native (channel_of req), asked)
           end.
Proof.
  unfold _handleMessage, channel_of.
  unfold mbind, M_bind at 1, this at 1. simpl.
  unfold mbind, M_bind at 1. rewrite call_hasOwnProperty_eq.
  destruct (answers _ _); simpl; [|done].
  by destruct (_subscribers (conn w) !! _).
Qed.

(** A message that finds no subscriber in a table with the built-in
    membership test: the response is given status 400 and ended, after the
    extra [end()] of a connection that is not connected. *)
Lemma _handleMessage_unrouted req res w :
  _subscribers (conn w) !! "hasOwnProperty" = None →
  _subscribers (conn w) !! channel_of req = None →
  _handleMessage req res w
    = (Return (res_end (res_status 400
         (if negb (_connected (conn w)) then res_end res else res))), w).
Proof.
  intros Hno Hnone. apply hasOwnProperty_false in Hnone.
  destruct (answers_plain (conn w) (channel_of req) Hno) as [Ha Hs].
  rewrite _handleMessage_eq. cbv zeta. rewrite Ha, Hs, Hnone. simpl.
  by rewrite app_nil_r, world_eta.
Qed.

Lemma _handleMessage_routed req res w notifyFn :
  _subscribers (conn w) !! "hasOwnProperty" = None →
  _subscribers (conn w) !! channel_of req = Some notifyFn →
  _handleMessage req res w
    = (Return (if negb (_connected (conn w)) then res_end res else res),
       mkWorld (conn w) (outbox w) (calls w ++ [Call notifyFn [req_body req]])).
Proof.
  intros Hno Hsome.
  assert (hasOwnProperty (_subscribers (conn w)) (channel_of req) = true)
    as Hown by (apply hasOwnProperty_true; eauto).
  destruct (answers_plain (conn w) (channel_of req) Hno) as [Ha Hs].
  rewrite _handleMessage_eq. cbv zeta. rewrite Ha, Hs, Hown, Hsome. simpl.
  by rewrite app_nil_r.
Qed.

Lemma _handleMessage_conn req res w :
  conn (exec (_handleMessage req res) w) = conn w.
Proof.
  unfold exec. rewrite _handleMessage_eq. cbv zeta.
  destruct (answers _ _); simpl; [|done].
  by destruct (_subscribers (conn w) !! _).
Qed.

(** ** The invariant of the routing table *)

Lemma connect_consistent done w :
  consistent w → consistent (exec (connect done) w).
Proof.
  intros Hw. unfold connect. run_monad.
  destruct (_connected (conn w)) eqn:Hc; simpl; [done|].
  destruct Hw as [Hkeys _]. destruct done; run_monad; by split.
Qed.

Lemma disconnect_consistent done w :
  consistent w → consistent (exec (disconnect done) w).
Proof.
  intros Hw.
  destruct (_connected (conn w)) eqn:Hc.
  - unfold exec. rewrite disconnect_connected; [|done|by destruct Hw]. simpl.
    split; [|done]. intros k [f Hf]. simpl in Hf.
    by rewrite lookup_empty in Hf.
  - unfold disconnect. run_monad. by rewrite Hc.
Qed.

Lemma createChannel_conn name options done w :
  conn (exec (createChannel name options done) w) = conn w.
Proof.
  unfold createChannel. run_monad.
  destruct (_connected (conn w)); simpl; [|done].
  by destruct name as [[|a s]|].
Qed.

Lemma publishMessage_conn channelName content done w :
  conn (exec (publishMessage channelName content done) w) = conn w.
Proof.
  unfold publishMessage. run_monad.
  destruct (_connected (conn w)); simpl; [|done].
  destruct channelName as [[|a s]|]; try done.
  by destruct content.
Qed.

Lemma assign_subscriber_cases k f w :
  (k = "__proto__" ∧
   assign_subscriber k f w
     = (Return (),
        mkWorld (set_subscribers_proto (Some f) (conn w))
                (outbox w) (calls w))) ∨
  (k ≠ "__proto__" ∧
   assign_subscriber k f w
     = (Return (),
        mkWorld (set_subscribers (<[k := f]> (_subscribers (conn w)))
                                 (conn w))
                (outbox w) (calls w))) ∨
  (k ≠ "__proto__" ∧ _subscribers (conn w) !! k = None ∧
   is_Some (_subscribers_proto (conn w)) ∧ k ∈ read_only_of_functions ∧
   assign_subscriber k f w = (Throw TypeError, w)).
Proof.
  unfold assign_subscriber. run_monad.
  case_bool_decide as Hk; [by left|]. right.
  destruct (hasOwnProperty _ _) eqn:Hown; [by left|].
  apply hasOwnProperty_false in Hown.
  destruct (_subscribers_proto (conn w)) as [p|] eqn:Hp; [|by left].
  case_bool_decide as Hro; [|by left]. right. by eauto 10.
Qed.

Lemma assign_subscriber_plain k f w :
  k ≠ "__proto__" →
  _subscribers_proto (conn w) = None →
  assign_subscriber k f w
    = (Return (),
       mkWorld (set_subscribers (<[k := f]> (_subscribers (conn w)))
                                (conn w))
               (outbox w) (calls w)).
Proof.
  intros Hk Hp.
  destruct (assign_subscriber_cases k f w)
    as [[? _]|[[_ ?]|(_ & _ & [p Hsome] & _)]]; [done|done|congruence].
Qed.

(** [subscribeChannel] past its first three checks. *)
Lemma subscribeChannel_connected k f done w :
  _connected (conn w) = true → k ≠ "" →
  subscribeChannel (Some k) (Some f) done w
    = (if answers (conn w) k
       then throw (Error "Already subscribed to this channel")
       else
         assign_subscriber k f;;
         post (_baseUrl (conn w) +:+ "/subscribe")
              (VObj [("name", VStr k);
                     ("notifyUrl",
                      VStr (_notifyBaseUrl (conn w) +:+ "/" +:+ k))])
              (OnSubscribe k done))
        (mkWorld (conn w) (outbox w) (calls w ++ shadow_calls (conn w) k)).
Proof.
  intros Hc Hk. unfold subscribeChannel.
  unfold mbind, M_bind at 1, this at 1. simpl. rewrite Hc. simpl.
  destruct k as [|a s]; [done|].
  unfold mbind, M_bind at 1. rewrite call_hasOwnProperty_eq.
  by destruct (answers _ _).
Qed.

Lemma subscribeChannel_consistent channelName notifyFn done w :
  consistent w → consistent (exec (subscribeChannel channelName notifyFn done) w).
Proof.
  intros Hw.
  destruct (_connected (conn w)) eqn:Hc;
    [|unfold subscribeChannel; run_monad; by rewrite Hc].
  destruct channelName as [k|];
    [|unfold subscribeChannel; run_monad; by rewrite Hc].
  destruct (decide (k = "")) as [->|Hk];
    [unfold subscribeChannel; run_monad; by rewrite Hc|].
  destruct notifyFn as [f|];
    [|unfold subscribeChannel; run_monad; rewrite Hc; by destruct k].
  unfold exec. rewrite subscribeChannel_connected by done.
  set (asked := mkWorld _ _ _).
  assert (consistent asked) as Hasked by (by destruct Hw).
  destruct (answers _ _); [done|].
  unfold mbind, M_bind.
  destruct (assign_subscriber_cases k f asked)
    as [[_ ->]|[[_ ->]|(_ & _ & _ & _ & ->)]]; simpl; try done.
  destruct Hw as [Hkeys _]. split; simpl; [|by rewrite Hc].
  intros k' [g Hg]. destruct (decide (k' = k)) as [->|Hne]; [done|].
  rewrite lookup_insert_ne in Hg by done. apply Hkeys. by exists g.
Qed.

Lemma delete_consistent k w :
  consistent w → consistent (exec (delete_subscriber k) w).
Proof.
  intros [Hkeys Hoff]. run_monad. split; simpl.
  - intros k' [g Hg]. apply lookup_delete_Some in Hg as [_ Hg].
    apply Hkeys. by exists g.
  - intros Hc. rewrite (Hoff Hc). apply delete_empty.
Qed.

Lemma unsubscribeChannel_consistent channelName done w :
  consistent w → consistent (exec (unsubscribeChannel channelName done) w).
Proof.
  intros Hw. unfold unsubscribeChannel.
  unfold exec, mbind, M_bind at 1, this. simpl.
  destruct (_connected (conn w)) eqn:Hc; simpl; [|done].
  destruct channelName as [[|a s]|]; try done.
  apply (delete_consistent (String a s)) in Hw.
  destruct Hw as [Hkeys Hoff]. run_monad. by split.
Qed.

Lemma preserves_bind {A B : Type} (m : M A) (k : A → M B) :
  preserves m → (∀ a, preserves (k a)) → preserves (m ≫= k).
Proof.
  intros Hm Hk w Hw. specialize (Hm w Hw).
  unfold exec, mbind, M_bind in *.
  destruct (m w) as [[a|e|p] w']; simpl in *; [by apply Hk|done|done].
Qed.

Lemma preserves_conn {A : Type} (m : M A) :
  (∀ w, conn (exec m w) = conn w) → preserves m.
Proof. intros Heq w [? ?]. unfold consistent. by rewrite Heq. Qed.

Lemma fire_consistent h r : preserves (fire h r).
Proof.
  pose proof (λ s d, preserves_conn _ (_handleResponse_conn s d)) as Hresp.
  pose proof (λ d a, preserves_conn _ (call_done_conn d a)) as Hdone.
  assert (∀ k, preserves (delete_subscriber k)) as Hdel
    by (intros k w; apply delete_consistent).
  destruct h as [done|k done|done|done], r as [status|code];
    unfold fire; try apply Hresp; try apply Hdone.
  - apply preserves_bind; [|intros; apply Hresp].
    destruct (negb (status =? 200) && negb (status =? 304)); [apply Hdel|].
    by apply preserves_conn.
  - apply preserves_bind; [apply Hdel|intros; apply Hdone].
Qed.

Lemma step_consistent w w' : step w w' → consistent w → consistent w'.
Proof.
  intros Hstep Hw. destruct Hstep as [o w|rq r w _|req res w].
  - destruct o; simpl.
    + by apply connect_consistent.
    + by apply disconnect_consistent.
    + destruct Hw. unfold consistent. by rewrite createChannel_conn.
    + by apply subscribeChannel_consistent.
    + by apply unsubscribeChannel_consistent.
    + destruct Hw. unfold consistent. by rewrite publishMessage_conn.
  - by apply fire_consistent.
  - destruct Hw. unfold consistent. by rewrite _handleMessage_conn.
Qed.

Lemma constructed_consistent w : constructed w → consistent w.
Proof.
  intros (u & config & c & Hnew & ->). unfold new_Connection in Hnew.
  destruct config as [cfg|]; [|done].
  destruct (falsy_string (serverUrl cfg)); [done|].
  injection Hnew as <-. split; simpl; [|done].
  intros k [f Hf]. by rewrite lookup_empty in Hf.
Qed.

Lemma reachable_consistent w : reachable w → consistent w.
Proof.
  intros (w0 & Hnew & Hrun). apply constructed_consistent in Hnew.
  induction Hrun as [|w1 w2 w3 Hstep _ IH]; [done|].
  apply IH. by apply (step_consistent w1).
Qed.

Lemma reachable_step w w' : reachable w → step w w' → reachable w'.
Proof.
  intros (w0 & Hnew & Hrun) Hstep. exists w0. split; [done|].
  by eapply rtc_r.
Qed.

Lemma example_constructed : constructed (fresh example_connection).
Proof.
  exists "http://localhost:3000/", (Some example_config), example_connection.
  split; [|done]. vm_compute. reflexivity.
Qed.

Lemma example_reachable : reachable (fresh example_connection).
Proof. exists (fresh example_connection). split; [apply example_constructed|done]. Qed.

Lemma example_connected_reachable : reachable example_connected.
Proof. eapply reachable_step; [apply example_reachable|apply step_call]. Qed.

Lemma example_subscribed_reachable : reachable example_subscribed.
Proof.
  eapply reachable_step; [apply example_connected_reachable|apply step_call].
Qed.


Lemma example_shadowed_reachable : reachable example_shadowed.
Proof.
  eapply reachable_step; [|apply step_call].
  eapply reachable_step; [apply example_connected_reachable|apply step_call].
Qed.

Lemma example_proto_reachable : reachable example_proto.
Proof.
  eapply reachable_step; [apply example_connected_reachable|apply step_call].
Qed.

(** ** The inbound dispatcher *)

(** C1, as the code has it: a message that reaches a connection that was
    never connected is not ignored.  The dispatcher ends the response, then
    goes on to the routing test, sets the status to 400 and ends the response
    a second time. *)
Theorem handleMessage_not_connected_goes_on :
  _connected (conn (fresh example_connection)) = false ∧
  _handleMessage example_message example_response (fresh example_connection)
    = (Return (mkRes 400 2), fresh example_connection).
Proof. split; vm_compute; reflexivity. Qed.

(** C7, as the code has it: with channels 'A' and 'hasOwnProperty'
    subscribed, a message addressed to 'A' on the connected connection does
    not reach the callback of 'A'.  The membership test of the dispatcher is
    the callback of 'hasOwnProperty': it is called with the channel name, it
    returns [undefined], and the message is answered with status 400. *)
Theorem dispatch_shadowed :
  reachable example_shadowed ∧
  _connected (conn example_shadowed) = true ∧
  _subscribers (conn example_shadowed) !! "A" = Some (Fn 1) ∧
  _handleMessage example_message_A example_response example_shadowed
    = (Return (mkRes 400 1),
       mkWorld (conn example_shadowed) (outbox example_shadowed)
               (calls example_shadowed ++ [Call (Fn 3) [VStr "A"]])).
Proof.
  split; [apply example_shadowed_reachable|].
  repeat split; vm_compute; reflexivity.
Qed.

(** ** Connect and disconnect *)

(** C8: on a freshly constructed connection [connect] succeeds and
    [isConnected] is then true; [disconnect] after it succeeds and
    [isConnected] is then false.  A [connect] on a connected connection
    throws and leaves it connected; a [disconnect] on a connection that is not
    connected throws and leaves it so. *)
Theorem connect_disconnect_toggle u config c done1 done2 :
  new_Connection u config = inr c →
  let w1 := exec (connect done1) (fresh c) in
  let w2 := exec (disconnect done2) w1 in
  isConnected (fresh c) = (Return false, fresh c) ∧
  (connect done1 (fresh c)).1 = Return () ∧
  isConnected w1 = (Return true, w1) ∧
  (disconnect done2 w1).1 = Return () ∧
  isConnected w2 = (Return false, w2) ∧
  (∀ done w, _connected (conn w) = true →
     connect done w = (Throw (Error "Connection already established"), w)) ∧
  (∀ done w, _connected (conn w) = false →
     disconnect done w
       = (Throw (Error "Connection already disconnected"), w)).
Proof.
  intros Hnew.
  assert (consistent (fresh c)) as Hfresh
    by (apply constructed_consistent; by exists u, config, c).
  assert (_connected c = false) as Hoff.
  { unfold new_Connection in Hnew. destruct config as [cfg|]; [|done].
    destruct (falsy_string (serverUrl cfg)); [done|]. by injection Hnew as <-. }
  assert (connect done1 (fresh c)
          = (Return (), mkWorld (set_connected true c) []
                          (done_calls done1 [VNull; VBool true]))) as Hcon.
  { unfold connect. run_monad. rewrite Hoff. by destruct done1. }
  simpl. unfold exec. rewrite Hcon. simpl.
  rewrite disconnect_connected; simpl; [|done|by destruct Hfresh].
  repeat split; try done.
  - unfold isConnected. simpl. by rewrite Hoff.
  - intros done w Hc. unfold connect. run_monad. by rewrite Hc.
  - intros done w Hc. unfold disconnect. run_monad. by rewrite Hc.
Qed.

Lemma connect_disconnect_toggle_witness :
  isConnected example_connected = (Return true, example_connected).
Proof.
  apply (connect_disconnect_toggle "http://localhost:3000/"
           (Some example_config) example_connection None None).
  vm_compute. reflexivity.
Defined.



(** ** Validation *)

(** C5, as the code has it: with channels 'A' and 'hasOwnProperty'
    subscribed, a second [subscribeChannel] for 'A' is not refused.  The
    guard calls the callback of 'hasOwnProperty' with 'A', takes the
    [undefined] it returns for "not subscribed", overwrites the callback of
    'A' and sends a subscribe request. *)
Theorem already_subscribed_not_detected :
  _connected (conn example_shadowed) = true ∧
  _subscribers (conn example_shadowed) !! "A" = Some (Fn 1) ∧
  subscribeChannel (Some "A") (Some (Fn 5)) (Some (Fn 6)) example_shadowed
    = (Return (),
       mkWorld
         (set_subscribers
            (<["A" := Fn 5]> (_subscribers (conn example_shadowed)))
            (conn example_shadowed))
         (outbox example_shadowed
            ++ [mkRequest "http://localhost:3000//subscribe"
                  (VObj [("name", VStr "A");
                         ("notifyUrl",
                          VStr "http://localhost:3001/spidymq/A")])
                  (OnSubscribe "A" (Some (Fn 6)))])
         (calls example_shadowed ++ [Call (Fn 3) [VStr "A"]])).
Proof. repeat split; vm_compute; reflexivity. Qed.

(** C9, as the code has it: once the channel 'hasOwnProperty' is
    subscribed, subscribing to it a second time does not throw.  The guard
    calls the first callback with the channel name instead of testing
    membership; the second call returns, the first callback is replaced by
    the second, and a second subscribe request is sent. *)
Theorem subscribe_twice_not_rejected :
  let w :=
    exec (subscribeChannel (Some "hasOwnProperty") (Some (Fn 3))
            (Some (Fn 4))) example_connected in
  reachable w ∧
  _connected (conn w) = true ∧
  _subscribers (conn w) !! "hasOwnProperty" = Some (Fn 3) ∧
  (subscribeChannel (Some "hasOwnProperty") (Some (Fn 5)) (Some (Fn 6)) w).1
    = Return () ∧
  let w' :=
    exec (subscribeChannel (Some "hasOwnProperty") (Some (Fn 5))
            (Some (Fn 6))) w in
  _subscribers (conn w') !! "hasOwnProperty" = Some (Fn 5) ∧
  calls w' = (calls w ++ [Call (Fn 3) [VStr "hasOwnProperty"]])%list ∧
  length (outbox w') = S (length (outbox w)).
Proof.
  split.
  { eapply reachable_step; [apply example_connected_reachable|].
    apply (step_call (SubscribeChannel (Some "hasOwnProperty") (Some (Fn 3))
                        (Some (Fn 4)))). }
  repeat split; vm_compute; reflexivity.
Qed.

(** ** Replies of the broker *)

Lemma fire_calls h r v :
  ∃ args,
    (fire h r v).1 = Return () ∧
    outbox (exec (fire h r) v) = outbox v ∧
    calls (exec (fire h r) v) = (calls v ++ done_calls (handler_done h) args)%list ∧
    outcome_of_args args = Some (spec_outcome r).
Proof.
  assert (∀ status done u,
    ∃ args,
      (_handleResponse status done u).1 = Return () ∧
      outbox (exec (_handleResponse status done) u) = outbox u ∧
      calls (exec (_handleResponse status done) u)
        = (calls u ++ done_calls done args)%list ∧
      outcome_of_args args = Some (spec_outcome (Response status))) as Hresp.
  { intros status done u.
    destruct (_handleResponse_calls status done u) as (args & Heq & Hout).
    exists args. unfold exec. by rewrite Heq. }
  assert (∀ done e u, error_outcome e = Some BrokerError →
    ∃ args,
      (call_done done [VError e] u).1 = Return () ∧
      outbox (exec (call_done done [VError e]) u) = outbox u ∧
      calls (exec (call_done done [VError e]) u)
        = (calls u ++ done_calls done args)%list ∧
      outcome_of_args args = Some BrokerError) as Hfail.
  { intros done e u He. exists [VError e].
    destruct done; run_monad; by rewrite ?app_nil_r. }
  destruct h as [done|k done|done|done], r as [status|code]; simpl;
    try apply Hresp; try (by apply Hfail).
  destruct (negb (status =? 200) && negb (status =? 304)); apply Hresp.
Qed.

Lemma assign_subscriber_returns k f w :
  (assign_subscriber k f w).1 = Return () ↔ assignable (conn w) k = true.
Proof.
  unfold assign_subscriber, assignable. run_monad.
  case_bool_decide; simpl; [done|].
  destruct (hasOwnProperty _ _); simpl; [done|].
  destruct (_subscribers_proto (conn w)); simpl; [|done].
  by case_bool_decide.
Qed.

Lemma subscribeChannel_outcome k f done w :
  _connected (conn w) = true → k ≠ "" →
  ((subscribeChannel (Some k) (Some f) done w).1 = Return () ↔
   answers (conn w) k = false ∧ assignable (conn w) k = true) ∧
  (answers (conn w) k = false → assignable (conn w) k = true →
   outbox (exec (subscribeChannel (Some k) (Some f) done) w)
     = (outbox w ++ [mkRequest (_baseUrl (conn w) +:+ "/subscribe")
          (VObj [("name", VStr k);
                 ("notifyUrl",
                  VStr (_notifyBaseUrl (conn w) +:+ "/" +:+ k))])
          (OnSubscribe k done)])%list).
Proof.
  intros Hc Hk. unfold exec. rewrite subscribeChannel_connected by done.
  set (asked := mkWorld _ _ _).
  pose proof (assign_subscriber_returns k f asked) as Hret.
  change (conn asked) with (conn w) in Hret.
  destruct (answers (conn w) k).
  { split; [|done]. split; [done|by intros [? _]]. }
  unfold mbind, M_bind.
  destruct (assign_subscriber_cases k f asked)
    as [[_ Heq]|[[_ Heq]|(_ & _ & _ & _ & Heq)]];
    rewrite Heq in *; simpl in *.
  - split; [|done]. split; [|done]. intros _. split; [done|by apply Hret].
  - split; [|done]. split; [|done]. intros _. split; [done|by apply Hret].
  - split.
    + split; [done|]. intros [_ Ha]. by apply Hret in Ha.
    + intros _ Ha. by apply Hret in Ha.
Qed.

Lemma run_returns_iff o w :
  broker_directed o = true →
  (run o w).1 = Return () ↔ valid_call o w = true.
Proof.
  intros Hop.
  destruct o as [d|d|name options d|ch fn d|ch d|ch content d]; try done;
    simpl; destruct (_connected (conn w)) eqn:Hc; simpl.
  - unfold createChannel. run_monad. rewrite Hc. simpl.
    by destruct name as [[|a s]|].
  - unfold createChannel. run_monad. by rewrite Hc.
  - destruct ch as [k|];
      [|unfold subscribeChannel; run_monad; by rewrite Hc].
    destruct (decide (k = "")) as [->|Hk];
      [unfold subscribeChannel; run_monad; by rewrite Hc|].
    assert (falsy_string (Some k) = false) as ->
      by (simpl; by rewrite bool_decide_eq_false_2).
    destruct fn as [f|];
      [|unfold subscribeChannel; run_monad; rewrite Hc; by destruct k].
    destruct (subscribeChannel_outcome k f d w Hc Hk) as [-> _]. simpl.
    destruct (answers _ _), (assignable _ _); simpl; intuition congruence.
  - unfold subscribeChannel. run_monad. by rewrite Hc.
  - unfold unsubscribeChannel. run_monad. rewrite Hc. simpl.
    by destruct ch as [[|a s]|].
  - unfold unsubscribeChannel. run_monad. by rewrite Hc.
  - unfold publishMessage. run_monad. rewrite Hc. simpl.
    destruct ch as [[|a s]|]; try done. by destruct content.
  - unfold publishMessage. run_monad. by rewrite Hc.
Qed.

Lemma run_valid_sends o w :
  valid_call o w = true →
  ∃ rq, outbox (exec (run o) w) = (outbox w ++ [rq])%list ∧
        handler_done (listeners rq) = done_of o.
Proof.
  intros Hvalid.
  destruct o as [d|d|name options d|ch fn d|ch d|ch content d]; try done;
    simpl in *; destruct (_connected (conn w)) eqn:Hc; try done; simpl in *.
  - unfold createChannel. run_monad. rewrite Hc. simpl.
    destruct name as [[|a s]|]; try done. by eexists.
  - destruct ch as [k|]; [|done].
    destruct (decide (k = "")) as [->|Hk]; [done|].
    assert (falsy_string (Some k) = false) as Hf
      by (simpl; by rewrite bool_decide_eq_false_2).
    rewrite Hf in Hvalid. destruct fn as [f|]; [|done]. simpl in Hvalid.
    apply andb_true_iff in Hvalid as [Ha%negb_true_iff Has].
    destruct (subscribeChannel_outcome k f d w Hc Hk) as [_ ->]; try done.
    by eexists.
  - unfold unsubscribeChannel. run_monad. rewrite Hc. simpl.
    destruct ch as [[|a s]|]; try done. by eexists.
  - unfold publishMessage. run_monad. rewrite Hc. simpl.
    destruct ch as [[|a s]|]; try done.
    destruct content; try done; by eexists.
Qed.

(** C2: a call of [createChannel], [subscribeChannel], [unsubscribeChannel]
    or [publishMessage] returns exactly when it passes the checks of the
    method (and its assignment is accepted), and it has then sent one request
    whose listeners hold its completion callback.  When that request is
    answered, the callback is called once, with arguments that read as the
    outcome of the response table: success(true) for 200, success(false) for
    304, a bad request for 400, a broker error for every other status and for
    a transport failure. *)
Theorem response_code_mapping o w :
  broker_directed o = true →
  ((run o w).1 = Return () ↔ valid_call o w = true) ∧
  (valid_call o w = true →
   ∃ rq,
     outbox (exec (run o) w) = (outbox w ++ [rq])%list ∧
     ∀ r v, ∃ args,
       (fire (listeners rq) r v).1 = Return () ∧
       calls (exec (fire (listeners rq) r) v)
         = (calls v ++ done_calls (done_of o) args)%list ∧
       outcome_of_args args = Some (spec_outcome r)).
Proof.
  intros Hop. split; [by apply run_returns_iff|]. intros Hvalid.
  destruct (run_valid_sends o w Hvalid) as (rq & Hout & Hd).
  exists rq. split; [done|]. intros r v.
  destruct (fire_calls (listeners rq) r v) as (args & Hret & _ & Hcalls & Ho).
  exists args. by rewrite <- Hd.
Qed.

Lemma response_code_mapping_witness :
  (run (CreateChannel (Some "pizza") (VObj [("type", VStr "round-robin")])
          (Some (Fn 5))) example_connected).1 = Return () ∧
  (run (SubscribeChannel (Some "pizza") (Some (Fn 1)) (Some (Fn 5)))
       example_connected).1 = Return () ∧
  (run (UnsubscribeChannel (Some "pizza") (Some (Fn 5)))
       example_connected).1 = Return () ∧
  (run (PublishMessage (Some "pizza") (VObj [("crust", VStr "deep dish")])
          (Some (Fn 5))) example_connected).1 = Return () ∧
  ∃ rq,
    outbox (exec (run (PublishMessage (Some "pizza")
                         (VObj [("crust", VStr "deep dish")]) (Some (Fn 5))))
                 example_connected)
      = (outbox example_connected ++ [rq])%list ∧
    ∀ r v, ∃ args,
      (fire (listeners rq) r v).1 = Return () ∧
      calls (exec (fire (listeners rq) r) v)
        = (calls v ++ [Call (Fn 5) args])%list ∧
      outcome_of_args args = Some (spec_outcome r).
Proof.
  split; [|split; [|split; [|split]]].
  - by apply (response_code_mapping
                (CreateChannel (Some "pizza")
                   (VObj [("type", VStr "round-robin")]) (Some (Fn 5)))
                example_connected eq_refl).
  - by apply (response_code_mapping
                (SubscribeChannel (Some "pizza") (Some (Fn 1)) (Some (Fn 5)))
                example_connected eq_refl).
  - by apply (response_code_mapping
                (UnsubscribeChannel (Some "pizza") (Some (Fn 5)))
                example_connected eq_refl).
  - by apply (response_code_mapping
                (PublishMessage (Some "pizza")
                   (VObj [("crust", VStr "deep dish")]) (Some (Fn 5)))
                example_connected eq_refl).
  - by apply (response_code_mapping
                (PublishMessage (Some "pizza")
                   (VObj [("crust", VStr "deep dish")]) (Some (Fn 5)))
                example_connected eq_refl).
Defined.

(** ** Subscriptions *)

(** C3, as the code has it: [subscribeChannel('__proto__', f, cb)] on a
    connected connection passes every check and sends its request, but the
    callback is not inserted into the routing table.  The assignment replaces
    the prototype of the table; the table has no own property of that name,
    and a message addressed to the notify url of the subscription is answered
    with status 400 and reaches no callback. *)
Theorem subscribe_proto_not_inserted :
  _connected (conn example_connected) = true ∧
  _subscribers (conn example_connected) !! "__proto__" = None ∧
  subscribeChannel (Some "__proto__") (Some (Fn 1)) (Some (Fn 2))
                   example_connected
    = (Return (), example_proto) ∧
  _subscribers (conn example_proto) !! "__proto__" = None ∧
  _subscribers_proto (conn example_proto) = Some (Fn 1) ∧
  outbox example_proto
    = [mkRequest "http://localhost:3000//subscribe"
         (VObj [("name", VStr "__proto__");
                ("notifyUrl",
                 VStr "http://localhost:3001/spidymq/__proto__")])
         (OnSubscribe "__proto__" (Some (Fn 2)))] ∧
  _handleMessage (mkReq "/spidymq/__proto__" (VObj [("pizza", VStr "yum yum")]))
                 example_response example_proto
    = (Return (mkRes 400 1), example_proto).
Proof. repeat split; vm_compute; reflexivity. Qed.

(** C4, as the code has it: with channels 'A' and 'hasOwnProperty'
    subscribed, unsubscribe from 'A' and let the broker confirm with 200.  A
    message addressed to 'A' afterwards does invoke a callback: the
    dispatcher calls the callback of 'hasOwnProperty' with the channel name
    as its membership test, before it answers with status 400. *)
Theorem message_after_unsubscribe_calls_back :
  let sent := exec (unsubscribeChannel (Some "A") (Some (Fn 7)))
                   example_shadowed in
  let replied := exec (fire (OnUnsubscribe (Some (Fn 7))) (Response 200))
                      sent in
  (unsubscribeChannel (Some "A") (Some (Fn 7)) example_shadowed).1
    = Return () ∧
  calls replied
    = (calls example_shadowed ++ [Call (Fn 7) [VNull; VBool true]])%list ∧
  _subscribers (conn replied) !! "A" = None ∧
  _handleMessage example_message_A example_response replied
    = (Return (mkRes 400 1),
       mkWorld (conn replied) (outbox replied)
               (calls replied ++ [Call (Fn 3) [VStr "A"]])).
Proof. repeat split; vm_compute; reflexivity. Qed.

(** C6: [disconnect] on a connected connection returns.  It has sent one
    unsubscribe request, without completion callback, for each key the
    routing table had (in some order), the routing table is empty and the
    flag is false, so [isConnected] answers false.  An inbound message then
    leaves the world as it is: nothing is called. *)
Theorem disconnect_fan_out w done :
  reachable w →
  _connected (conn w) = true →
  ∃ sent w',
    disconnect done w = (Return (), w') ∧
    outbox w' = (outbox w ++ sent)%list ∧
    sent ≡ₚ (unsubscribe_request (conn w)
               <$> elements (dom (_subscribers (conn w)))) ∧
    _subscribers (conn w') = ∅ ∧
    _connected (conn w') = false ∧
    isConnected w' = (Return false, w') ∧
    calls w' = (calls w ++ done_calls done [VNull; VBool true])%list ∧
    ∀ req res, exec (_handleMessage req res) w' = w'.
Proof.
  intros [Hkeys _]%reachable_consistent Hc.
  eexists _, _. split; [by apply disconnect_connected|]. simpl.
  split; [done|]. split; [by rewrite own_keys_elements|].
  do 4 (split; [done|]).
  intros req res. unfold exec.
  rewrite _handleMessage_unrouted; [done| |]; apply lookup_empty.
Qed.

Lemma disconnect_fan_out_witness :
  ∃ sent w',
    disconnect None example_subscribed = (Return (), w') ∧
    outbox w' = (outbox example_subscribed ++ sent)%list ∧
    sent ≡ₚ (unsubscribe_request (conn example_subscribed)
               <$> elements (dom (_subscribers (conn example_subscribed)))) ∧
    _subscribers (conn w') = ∅ ∧
    _connected (conn w') = false ∧
    isConnected w' = (Return false, w') ∧
    calls w' = (calls example_subscribed
                  ++ done_calls None [VNull; VBool true])%list ∧
    ∀ req res, exec (_handleMessage req res) w' = w'.
Proof.
  apply (disconnect_fan_out example_subscribed None);
    [apply example_subscribed_reachable|reflexivity].
Defined.

(** ** The constructor *)

Lemma app_cons c s t : String c s +:+ t = String c (s +:+ t).
Proof. reflexivity. Qed.

Lemma app_nil_l_string t : "" +:+ t = t.
Proof. reflexivity. Qed.

Lemma length_app_char s c :
  String.length (s +:+ String c "") = S (String.length s).
Proof.
  induction s as [|a s IH]; [done|].
  rewrite app_cons. simpl. by rewrite IH.
Qed.

Lemma get_app_char s c :
  String.get (String.length s) (s +:+ String c "") = Some c.
Proof. induction s as [|a s IH]; [done|]. by rewrite app_cons. Qed.

Lemma substring_app_char s c :
  String.substring 0 (String.length s) (s +:+ String c "") = s.
Proof.
  induction s as [|a s IH]; [done|].
  rewrite app_cons. simpl. by rewrite IH.
Qed.

Lemma strip_trailing_slash_app s : strip_trailing_slash (s +:+ "/") = s.
Proof.
  unfold strip_trailing_slash. rewrite length_app_char.
  replace (S (String.length s) - 1)%nat with (String.length s) by lia.
  rewrite get_app_char. rewrite bool_decide_eq_true_2 by done.
  apply substring_app_char.
Qed.

Lemma get_last_char s c :
  String.get (String.length s - 1) s = Some c →
  ∃ s', s = s' +:+ String c "".
Proof.
  induction s as [|a s IH]; [done|]. simpl.
  rewrite Nat.sub_0_r. destruct s as [|b s].
  - simpl. intros [= ->]. by exists "".
  - simpl in *. rewrite Nat.sub_0_r in IH. intros Hget.
    destruct (IH Hget) as (s' & Hs'). exists (String a s').
    by rewrite app_cons, <- Hs'.
Qed.

Lemma strip_trailing_slash_id s :
  (∀ s', s ≠ s' +:+ "/") → strip_trailing_slash s = s.
Proof.
  intros Hno. unfold strip_trailing_slash.
  destruct (String.get (String.length s - 1) s) as [c|] eqn:Hget; [|done].
  case_bool_decide as Hc; [|done]. subst c.
  apply get_last_char in Hget as (s' & ->). by destruct (Hno s').
Qed.

(** X1: [createConnection] returns a connection exactly when it is given a
    configuration whose [serverUrl] is a non-empty string; it throws
    otherwise. *)
Theorem createConnection_succeeds_iff u config :
  (∃ c, createConnection u config = inr c) ↔
  (∃ cfg server, config = Some cfg ∧ serverUrl cfg = Some server ∧
                 server ≠ "").
Proof.
  unfold createConnection, new_Connection. split.
  - intros (c & Hnew). destruct config as [cfg|]; [|done].
    exists cfg. destruct (serverUrl cfg) as [server|]; [|done].
    exists server. simpl in Hnew. case_bool_decide; [done|]. done.
  - intros (cfg & server & -> & Hs & Hne). rewrite Hs. simpl.
    rewrite bool_decide_eq_false_2 by done. by eexists.
Qed.

(** X2: The connection [createConnection] returns is not connected, routes
    nothing and talks to the given broker url.  Its notify base url is the
    [serverUrl] without one trailing slash, followed by the mount path
    ('/spidymq' when none is configured); a [serverUrl] that does not end in
    a slash is taken as it is. *)
Theorem createConnection_notify_base u server mount parser c :
  createConnection u (Some (mkConfig (Some server) mount parser)) = inr c →
  _baseUrl c = u ∧ _connected c = false ∧ _subscribers c = ∅ ∧
  post_route (router c) = or_string mount "/spidymq" +:+ "/:channel" ∧
  (∀ s, server = s +:+ "/" →
        _notifyBaseUrl c = s +:+ or_string mount "/spidymq") ∧
  ((∀ s, server ≠ s +:+ "/") →
   _notifyBaseUrl c = server +:+ or_string mount "/spidymq").
Proof.
  unfold createConnection, new_Connection. simpl.
  case_bool_decide; [done|]. intros [= <-]. simpl.
  repeat split; try done.
  - intros s ->. by rewrite strip_trailing_slash_app.
  - intros Hno. by rewrite strip_trailing_slash_id.
Qed.

Lemma createConnection_notify_base_witness :
  _notifyBaseUrl example_connection = "http://localhost:3001" +:+ "/spidymq".
Proof.
  apply (createConnection_notify_base "http://localhost:3000/"
           "http://localhost:3001/" None None example_connection
           eq_refl); reflexivity.
Defined.

(** ** Notify urls and the dispatcher *)

Lemma split_free_of sep x : free_of sep x → split sep x = [x].
Proof.
  induction x as [|a x IH]; [done|]. intros [Ha Hx]. simpl.
  rewrite bool_decide_eq_false_2 by done. by rewrite IH.
Qed.

Lemma not_free_of_app sep p x : ¬ free_of sep (p +:+ String sep x).
Proof.
  induction p as [|a p IH]; [by intros [? _]|].
  rewrite app_cons. by intros [_ ?].
Qed.

Lemma pop_split_app sep p x :
  free_of sep x → pop (split sep (p +:+ String sep x)) = Some x.
Proof.
  intros Hx. induction p as [|a p IH].
  - rewrite app_nil_l_string. simpl. rewrite bool_decide_eq_true_2 by done.
    by rewrite split_free_of.
  - rewrite app_cons. simpl.
    pose proof (split_not_nil sep (p +:+ String sep x)) as Hne.
    pose proof (join_split sep (p +:+ String sep x)) as Hjoin.
    pose proof (split_free sep (p +:+ String sep x)) as Hfree.
    destruct (split sep (p +:+ String sep x)) as [|y ys]; [done|].
    case_bool_decide; [done|].
    destruct ys as [|z zs]; [|done].
    simpl in Hjoin. subst y. inversion Hfree as [|? ? Hy _]; subst.
    by apply not_free_of_app in Hy.
Qed.

Lemma channel_of_notify_url p channelName b :
  free_of "/" channelName →
  channel_of (mkReq (p +:+ "/" +:+ channelName) b) = channelName.
Proof.
  intros Hfree. unfold channel_of. simpl.
  change ("/" +:+ channelName) with (String "/" channelName).
  by rewrite pop_split_app.
Qed.

Lemma channel_of_free req : free_of "/" (channel_of req).
Proof.
  unfold channel_of.
  by destruct (pop_split "/" (req_url req)) as (x & -> & Hfree & _).
Qed.

Lemma subscribeChannel_valid w channelName notifyFn done :
  plain w →
  _connected (conn w) = true →
  channelName ≠ "" →
  channelName ≠ "__proto__" →
  _subscribers (conn w) !! channelName = None →
  subscribeChannel (Some channelName) (Some notifyFn) done w
    = (Return (),
       mkWorld
         (set_subscribers (<[channelName := notifyFn]> (_subscribers (conn w)))
                          (conn w))
         (outbox w ++ [mkRequest (_baseUrl (conn w) +:+ "/subscribe")
            (VObj [("name", VStr channelName);
                   ("notifyUrl",
                    VStr (_notifyBaseUrl (conn w) +:+ "/" +:+ channelName))])
            (OnSubscribe channelName done)])
         (calls w)).
Proof.
  intros [Hno Hproto] Hc Hne Hk Hnone. apply hasOwnProperty_false in Hnone.
  rewrite subscribeChannel_connected by done.
  destruct (answers_plain (conn w) channelName Hno) as [-> ->].
  rewrite Hnone, app_nil_r, world_eta.
  unfold mbind, M_bind. by rewrite assign_subscriber_plain.
Qed.

(** X3: A subscription can be reached at the notify url it registers.  On a
    routing table that is a dictionary, after a valid [subscribeChannel] for
    a channel name without a slash (and other than '__proto__' and
    'hasOwnProperty'), a message whose path is the [notifyUrl] of the request
    just sent (or any path that ends in a slash and the channel name) is
    handed to the notify callback of that call, with its body, and the
    response is left as it came. *)
Theorem subscribe_then_message w channelName notifyFn done p b res :
  plain w →
  dictionary_key channelName →
  _connected (conn w) = true →
  channelName ≠ "" →
  free_of "/" channelName →
  _subscribers (conn w) !! channelName = None →
  let w' := exec (subscribeChannel (Some channelName) (Some notifyFn) done) w in
  (∃ rq, outbox w' = (outbox w ++ [rq])%list ∧
         get_prop (body rq) "notifyUrl"
           = VStr (_notifyBaseUrl (conn w) +:+ "/" +:+ channelName)) ∧
  _handleMessage (mkReq (p +:+ "/" +:+ channelName) b) res w'
    = (Return res,
       mkWorld (conn w') (outbox w') (calls w' ++ [Call notifyFn [b]])).
Proof.
  intros Hplain [Hproto Hshadow] Hc Hne Hfree Hnone. unfold exec.
  rewrite subscribeChannel_valid by done. simpl. split.
  - by eexists.
  - rewrite (_handleMessage_routed _ _ _ notifyFn).
    + simpl. by rewrite Hc.
    + simpl. rewrite lookup_insert_ne by done. by destruct Hplain.
    + rewrite channel_of_notify_url by done. simpl. apply lookup_insert_eq.
Qed.

Lemma subscribe_then_message_witness :
  _handleMessage (mkReq ("/spidymq" +:+ "/" +:+ "test")
                        (VObj [("pizza", VStr "yum yum")]))
                 example_response example_subscribed
    = (Return example_response,
       mkWorld (conn example_subscribed) (outbox example_subscribed)
         (calls example_subscribed
            ++ [Call (Fn 1) [VObj [("pizza", VStr "yum yum")]]])).
Proof.
  apply (subscribe_then_message example_connected "test" (Fn 1) (Some (Fn 2))
           "/spidymq" (VObj [("pizza", VStr "yum yum")]) example_response);
    [split; reflexivity|split; discriminate|reflexivity|discriminate|
     simpl; repeat (split; [discriminate|]); exact I|vm_compute; reflexivity].
Defined.

(** X4: A channel name with a slash in it is never dispatched to: the dispatcher
    looks messages up under the part of the path after its last slash, so
    for every message it answers and calls exactly as it would if the entry
    of such a channel were not in the routing table. *)
Theorem slashed_channel_never_dispatched w channelName req res :
  ¬ free_of "/" channelName →
  channel_of req ≠ channelName ∧
  (_handleMessage req res w).1
    = (_handleMessage req res (without channelName w)).1 ∧
  calls (exec (_handleMessage req res) w)
    = calls (exec (_handleMessage req res) (without channelName w)).
Proof.
  intros Hslash.
  assert (channel_of req ≠ channelName) as Hne
    by (intros <-; apply Hslash, channel_of_free).
  split; [done|].
  assert ("hasOwnProperty" ≠ channelName) as Hh.
  { intros <-. apply Hslash. simpl. repeat (split; [discriminate|]). exact I. }
  assert (∀ k, k ≠ channelName →
               _subscribers (conn (without channelName w)) !! k
               = _subscribers (conn w) !! k) as Hsame
    by (intros k ?; simpl; by apply lookup_delete_ne).
  assert (answers (conn (without channelName w)) (channel_of req)
          = answers (conn w) (channel_of req)) as Ha.
  { unfold answers, hasOwnProperty. by rewrite !Hsame. }
  assert (shadow_calls (conn (without channelName w)) (channel_of req)
          = shadow_calls (conn w) (channel_of req)) as Hs.
  { unfold shadow_calls. by rewrite Hsame. }
  unfold exec. rewrite !_handleMessage_eq. cbv zeta.
  rewrite Ha, Hs, Hsame by done. unfold without. clear Ha Hs Hsame.
  destruct (answers (conn w) (channel_of req)); simpl; [|done].
  by destruct (_subscribers (conn w) !! channel_of req).
Qed.

Lemma slashed_channel_never_dispatched_witness :
  channel_of example_message ≠ "a/b".
Proof.
  apply (slashed_channel_never_dispatched example_connected "a/b"
           example_message example_response).
  simpl. intros [_ [H _]]. by apply H.
Defined.

(** ** What a step does to the world *)

Lemma exec_bind {A B : Type} (m : M A) (k : A → M B) w :
  exec (m ≫= k) w
    = match (m w).1 with
      | Return a => exec (k a) (exec m w)
      | Throw _ | Native _ => exec m w
      end.
Proof. unfold exec, mbind, M_bind. by destruct (m w) as [[a|e|p] w']. Qed.

Lemma same_config_refl c : same_config c c.
Proof. by repeat split. Qed.

Lemma same_config_trans c1 c2 c3 :
  same_config c1 c2 → same_config c2 c3 → same_config c1 c3.
Proof.
  intros (H1 & H2 & H3) (H4 & H5 & H6). unfold same_config.
  by rewrite H4, H5, H6.
Qed.

Lemma addressed_same_config c c' rq :
  same_config c c' → addressed c' rq → addressed c rq.
Proof.
  intros (Hb & Hn & _) Hrq. destruct Hrq; rewrite ?Hb, ?Hn; constructor.
Qed.

Lemma sends_only_ret {A : Type} (a : A) : sends_only (mret a).
Proof.
  intros w. split; [apply same_config_refl|]. split; [done|].
  exists []. by rewrite app_nil_r.
Qed.

Lemma sends_only_bind {A B : Type} (m : M A) (k : A → M B) :
  sends_only m → (∀ a, sends_only (k a)) → sends_only (m ≫= k).
Proof.
  intros Hm Hk w. rewrite exec_bind.
  destruct (Hm w) as (Hcfg & Hcalls & sent & Hout & Hsent).
  destruct ((m w).1) as [a|e|p]; [|by eauto|by eauto].
  destruct (Hk a (exec m w)) as (Hcfg' & Hcalls' & sent' & Hout' & Hsent').
  split; [by eapply same_config_trans|]. split; [congruence|].
  exists (sent ++ sent')%list. split; [by rewrite Hout', Hout, app_assoc|].
  apply Forall_app. split; [done|].
  eapply Forall_impl; [exact Hsent'|]. intros rq.
  by apply addressed_same_config.
Qed.

Lemma unsubscribeChannel_sends_only channelName done :
  sends_only (unsubscribeChannel channelName done).
Proof.
  intros w. unfold unsubscribeChannel. run_monad.
  assert (same_config (conn w) (conn w) ∧ calls w = calls w ∧
          ∃ sent, outbox w = (outbox w ++ sent)%list ∧
                  Forall (addressed (conn w)) sent) as Hnothing.
  { split; [apply same_config_refl|]. split; [done|].
    exists []. by rewrite app_nil_r. }
  destruct (_connected (conn w)); simpl; [|done].
  destruct channelName as [[|a s]|]; try done.
  split; [by repeat split|]. split; [done|].
  eexists. split; [done|]. repeat constructor.
Qed.

Lemma for_in_sends_only keys :
  sends_only
    (for_in_subscribers keys (λ k, unsubscribeChannel (Some k) None)).
Proof.
  induction keys as [|k keys IH]; [apply sends_only_ret|].
  simpl. apply sends_only_bind.
  - intros w. split; [apply same_config_refl|]. split; [done|].
    exists []. by rewrite app_nil_r.
  - intros c. apply sends_only_bind; [|done].
    destruct (hasOwnProperty _ _);
      [apply unsubscribeChannel_sends_only|apply sends_only_ret].
Qed.

Lemma step_effect_intro w w' sent new :
  same_config (conn w) (conn w') →
  outbox w' = (outbox w ++ sent)%list →
  Forall (addressed (conn w)) sent →
  calls w' = (calls w ++ new)%list →
  (length new ≤ 1)%nat →
  step_effect w w'.
Proof. intros. split; [done|]. split; eexists; eauto. Qed.

Lemma step_effect_refl w : step_effect w w.
Proof.
  apply (step_effect_intro _ _ [] []);
    rewrite ?app_nil_r; auto using same_config_refl.
Qed.

Lemma sends_only_effect {A : Type} (m : M A) w :
  sends_only m → step_effect w (exec m w).
Proof.
  intros Hm. destruct (Hm w) as (Hcfg & Hcalls & sent & Hout & Hsent).
  apply (step_effect_intro _ _ sent []); rewrite ?app_nil_r; auto.
Qed.

Lemma done_calls_length done args : (length (done_calls done args) ≤ 1)%nat.
Proof. destruct done; simpl; lia. Qed.

Lemma connect_effect done w : step_effect w (exec (connect done) w).
Proof.
  unfold connect. run_monad.
  destruct (_connected (conn w)); simpl; [apply step_effect_refl|].
  apply (step_effect_intro _ _ [] (done_calls done [VNull; VBool true]));
    destruct done; simpl; rewrite ?app_nil_r; auto.
  all: by repeat split.
Qed.

Lemma disconnect_effect done w : step_effect w (exec (disconnect done) w).
Proof.
  destruct (for_in_sends_only (own_keys (_subscribers (conn w))) w)
    as (Hcfg & Hcalls & sent & Hout & Hsent).
  unfold disconnect. run_monad.
  destruct (_connected (conn w)); simpl; [|apply step_effect_refl].
  destruct (for_in_subscribers _ _ w) as [[[]|e|p] w1]; simpl in *.
  - destruct Hcfg as (? & ? & ?).
    apply (step_effect_intro _ _ sent (done_calls done [VNull; VBool true]));
      auto using done_calls_length;
      destruct done; simpl; rewrite ?app_nil_r; try done; by f_equal.
  - apply (step_effect_intro _ _ sent []); rewrite ?app_nil_r; auto.
  - apply (step_effect_intro _ _ sent []); rewrite ?app_nil_r; auto.
Qed.

Lemma createChannel_effect name options done w :
  step_effect w (exec (createChannel name options done) w).
Proof.
  unfold createChannel. run_monad.
  destruct (_connected (conn w)); simpl; [|apply step_effect_refl].
  destruct name as [[|a s]|]; try apply step_effect_refl.
  eapply (step_effect_intro _ _ [_] []); simpl; rewrite ?app_nil_r;
    auto using same_config_refl.
  repeat constructor.
Qed.

Lemma shadow_calls_length c k : (length (shadow_calls c k) ≤ 1)%nat.
Proof.
  unfold shadow_calls. destruct (_subscribers c !! "hasOwnProperty"); simpl; lia.
Qed.

Lemma subscribeChannel_effect channelName notifyFn done w :
  step_effect w (exec (subscribeChannel channelName notifyFn done) w).
Proof.
  destruct (_connected (conn w)) eqn:Hc;
    [|unfold subscribeChannel; run_monad; rewrite Hc;
      apply step_effect_refl].
  destruct channelName as [k|];
    [|unfold subscribeChannel; run_monad; rewrite Hc;
      apply step_effect_refl].
  destruct (decide (k = "")) as [->|Hk];
    [unfold subscribeChannel; run_monad; rewrite Hc;
     apply step_effect_refl|].
  destruct notifyFn as [f|];
    [|unfold subscribeChannel; run_monad; rewrite Hc; destruct k;
      apply step_effect_refl].
  unfold exec. rewrite subscribeChannel_connected by done.
  set (asked := mkWorld _ _ _).
  destruct (answers _ _).
  { apply (step_effect_intro _ _ [] (shadow_calls (conn w) k));
      simpl; rewrite ?app_nil_r;
      auto using same_config_refl, shadow_calls_length. }
  unfold mbind, M_bind.
  destruct (assign_subscriber_cases k f asked)
    as [[_ ->]|[[_ ->]|(_ & _ & _ & _ & ->)]]; simpl.
  - eapply (step_effect_intro _ _ [_] (shadow_calls (conn w) k)); simpl;
      auto using shadow_calls_length; [by repeat split|repeat constructor].
  - eapply (step_effect_intro _ _ [_] (shadow_calls (conn w) k)); simpl;
      auto using shadow_calls_length; [by repeat split|repeat constructor].
  - apply (step_effect_intro _ _ [] (shadow_calls (conn w) k));
      simpl; rewrite ?app_nil_r;
      auto using same_config_refl, shadow_calls_length.
Qed.

Lemma publishMessage_effect channelName content done w :
  step_effect w (exec (publishMessage channelName content done) w).
Proof.
  unfold publishMessage. run_monad.
  destruct (_connected (conn w)); simpl; [|apply step_effect_refl].
  destruct channelName as [[|a s]|]; try apply step_effect_refl.
  destruct content; try apply step_effect_refl;
    (eapply (step_effect_intro _ _ [_] []); simpl; rewrite ?app_nil_r;
     auto using same_config_refl; repeat constructor).
Qed.

Lemma fire_same_config h r v : same_config (conn v) (conn (exec (fire h r) v)).
Proof.
  assert (∀ k u, same_config (conn u) (conn (exec (delete_subscriber k) u)))
    as Hdel by (intros; by repeat split).
  destruct h as [done|k done|done|done], r as [status|code]; simpl;
    rewrite ?_handleResponse_conn, ?call_done_conn;
    try apply same_config_refl.
  - rewrite exec_bind.
    destruct (negb (status =? 200) && negb (status =? 304)); simpl;
      rewrite _handleResponse_conn; [apply Hdel|apply same_config_refl].
  - rewrite exec_bind. simpl. rewrite call_done_conn. apply Hdel.
Qed.

Lemma fire_effect h r w : step_effect w (exec (fire h r) w).
Proof.
  destruct (fire_calls h r w) as (args & _ & Hout & Hcalls & _).
  apply (step_effect_intro _ _ [] (done_calls (handler_done h) args));
    rewrite ?app_nil_r; auto using fire_same_config, done_calls_length.
Qed.

Lemma _handleMessage_effect req res w :
  step_effect w (exec (_handleMessage req res) w).
Proof.
  unfold exec. rewrite _handleMessage_eq. cbv zeta.
  split; [|split].
  - destruct (answers _ _); simpl; [|apply same_config_refl].
    destruct (_subscribers (conn w) !! _); apply same_config_refl.
  - exists []. rewrite app_nil_r. split; [|constructor].
    destruct (answers _ _); simpl; [|done].
    by destruct (_subscribers (conn w) !! _).
  - destruct (answers _ _) eqn:Ha; simpl;
      [destruct (_subscribers (conn w) !! channel_of req) as [f|] eqn:Hf|];
      simpl.
    + eexists. split; [by rewrite <- app_assoc|].
      intros [Hno _].
      destruct (answers_plain (conn w) (channel_of req) Hno) as [_ ->].
      simpl. lia.
    + eexists. split; [done|]. intros _. apply shadow_calls_length.
    + eexists. split; [done|]. intros _. apply shadow_calls_length.
Qed.

Lemma step_step_effect w w' : step w w' → step_effect w w'.
Proof.
  intros [o w0|rq r w0 _|req res w0].
  - destruct o; simpl.
    + apply connect_effect.
    + apply disconnect_effect.
    + apply createChannel_effect.
    + apply subscribeChannel_effect.
    + apply sends_only_effect, unsubscribeChannel_sends_only.
    + apply publishMessage_effect.
  - apply fire_effect.
  - apply _handleMessage_effect.
Qed.


(** X5: One step of the world takes nothing back: the requests sent and the
    calls made before it are still there, in the same order, with whatever
    the step added after them.  On a routing table that is a dictionary the
    step calls at most one callback. *)
Theorem step_grows w w' :
  step w w' →
  (∃ sent, outbox w' = (outbox w ++ sent)%list) ∧
  (∃ new, calls w' = (calls w ++ new)%list ∧
          (plain w → (length new ≤ 1)%nat)).
Proof.
  intros (_ & (sent & Hout & _) & Hcalls)%step_step_effect.
  split; [by exists sent|done].
Qed.

Lemma step_grows_witness :
  (∃ sent, outbox example_subscribed
           = (outbox example_connected ++ sent)%list) ∧
  (∃ new, calls example_subscribed = (calls example_connected ++ new)%list ∧
          (plain example_connected → (length new ≤ 1)%nat)).
Proof.
  apply (step_grows example_connected example_subscribed).
  apply (step_call (SubscribeChannel (Some "test") (Some (Fn 1))
                      (Some (Fn 2)))).
Defined.

Lemma run_effect w0 w :
  rtc step w0 w →
  same_config (conn w0) (conn w) ∧
  (Forall (addressed (conn w0)) (outbox w0) →
   Forall (addressed (conn w0)) (outbox w)).
Proof.
  intros Hrun. induction Hrun as [w|w1 w2 w3 Hstep _ IH].
  - split; [apply same_config_refl|done].
  - apply step_step_effect in Hstep
      as (Hcfg & (sent & Hout & Hsent) & _).
    destruct IH as (Hcfg' & Hall). split; [by eapply same_config_trans|].
    intros Hw1.
    assert (∀ rq, addressed (conn w1) rq → addressed (conn w2) rq) as Hfwd.
    { intros rq Hrq. destruct Hcfg as (Hb & Hn & _).
      destruct Hrq; rewrite <- ?Hb, <- ?Hn; constructor. }
    assert (Forall (addressed (conn w2)) (outbox w2)) as Hw2.
    { rewrite Hout. apply Forall_app.
      split; (eapply Forall_impl; [eassumption|exact Hfwd]). }
    eapply Forall_impl; [exact (Hall Hw2)|].
    intros rq. by apply addressed_same_config.
Qed.

(** X6: Whatever happens to a connection after [createConnection] returned it,
    its broker url, its notify base url and its router stay as constructed,
    and every request it has sent is one of the four requests of the class,
    posted under that broker url. *)
Theorem run_keeps_config u config c w :
  createConnection u config = inr c →
  rtc step (fresh c) w →
  _baseUrl (conn w) = u ∧
  _notifyBaseUrl (conn w) = _notifyBaseUrl c ∧
  router (conn w) = router c ∧
  Forall (addressed c) (outbox w).
Proof.
  intros Hnew Hrun.
  assert (_baseUrl c = u) as Hu.
  { unfold createConnection, new_Connection in Hnew.
    destruct config as [cfg|]; [|done].
    destruct (falsy_string (serverUrl cfg)); [done|].
    by injection Hnew as <-. }
  destruct (run_effect _ _ Hrun) as ((Hb & Hn & Hr) & Hall). simpl in *.
  repeat split; try done; [congruence|]. apply Hall. constructor.
Qed.

Lemma run_keeps_config_witness :
  _baseUrl (conn example_subscribed) = "http://localhost:3000/" ∧
  _notifyBaseUrl (conn example_subscribed)
    = _notifyBaseUrl example_connection ∧
  router (conn example_subscribed) = router example_connection ∧
  Forall (addressed example_connection) (outbox example_subscribed).
Proof.
  apply (run_keeps_config "http://localhost:3000/" (Some example_config));
    [reflexivity|].
  eapply rtc_l; [apply (step_call (Connect None))|].
  eapply rtc_l; [|apply rtc_refl].
  apply (step_call (SubscribeChannel (Some "test") (Some (Fn 1))
                      (Some (Fn 2)))).
Defined.





(** X9: No reachable routing table has the empty string as a key. *)
Theorem empty_name_never_routed w :
  reachable w → _subscribers (conn w) !! "" = None.
Proof.
  intros [Hkeys _]%reachable_consistent.
  apply eq_None_not_Some. intros Hsome. by apply (Hkeys "").
Qed.

Lemma empty_name_never_routed_witness :
  _subscribers (conn example_subscribed) !! "" = None.
Proof.
  apply empty_name_never_routed, example_subscribed_reachable.
Defined.


(** ** Calls that return *)



(** X11: [publishMessage] refuses only [null] and [undefined] as content: on a
    connected connection and for a non-empty channel name, every other
    content, [false], [0] and [''] included, is sent as it is in one request
    to '/message'. *)
Theorem publish_any_defined_content w channelName content done :
  _connected (conn w) = true →
  channelName ≠ "" →
  content ≠ VNull → content ≠ VUndefined →
  publishMessage (Some channelName) content done w
    = (Return (),
       mkWorld (conn w)
         (outbox w ++ [mkRequest (_baseUrl (conn w) +:+ "/message")
            (VObj [("channel", VStr channelName); ("content", content)])
            (OnPublish done)])
         (calls w)).
Proof.
  intros Hc Hne Hnull Hundef. unfold publishMessage. run_monad.
  rewrite Hc. simpl. destruct channelName as [|a s]; [done|].
  by destruct content.
Qed.

Lemma publish_any_defined_content_witness :
  publishMessage (Some "pizza") (VBool false) None example_connected
    = (Return (),
       mkWorld (conn example_connected)
         (outbox example_connected
            ++ [mkRequest (_baseUrl (conn example_connected) +:+ "/message")
                  (VObj [("channel", VStr "pizza");
                         ("content", VBool false)])
                  (OnPublish None)])
         (calls example_connected)).
Proof.
  apply (publish_any_defined_content example_connected "pizza" (VBool false)
           None); [reflexivity|discriminate|discriminate|discriminate].
Defined.

(** X12: [createChannel] and [publishMessage] leave the connection alone and call
    nothing before they return or throw; they send one request or none. *)
Theorem create_publish_frame w :
  ∀ m, (∃ name options done, m = createChannel name options done) ∨
       (∃ channelName content done,
          m = publishMessage channelName content done) →
  conn (exec m w) = conn w ∧
  calls (exec m w) = calls w ∧
  (outbox (exec m w) = outbox w ∨
   ∃ rq, outbox (exec m w) = (outbox w ++ [rq])%list).
Proof.
  intros m [(name & options & d & ->)|(ch & content & d & ->)].
  - split; [apply createChannel_conn|].
    unfold createChannel. run_monad.
    destruct (_connected (conn w)); simpl; [|by auto].
    destruct name as [[|a s]|]; simpl; eauto.
  - split; [apply publishMessage_conn|].
    unfold publishMessage. run_monad.
    destruct (_connected (conn w)); simpl; [|by auto].
    destruct ch as [[|a s]|]; simpl; eauto.
    destruct content; simpl; eauto.
Qed.

Lemma create_publish_frame_witness :
  conn (exec (createChannel (Some "pizza") VNull None) example_subscribed)
    = conn example_subscribed.
Proof.
  apply (create_publish_frame example_subscribed
           (createChannel (Some "pizza") VNull None)).
  left. by eexists _, _, _.
Defined.

(** ** Subscriptions over several steps *)

(** X13: On a routing table that is a dictionary, subscribing to a channel
    (other than '__proto__') and unsubscribing from it again gives back the
    connection as it was: same flag, same routing table.  Nothing was called,
    and two requests were sent, the subscribe and then the unsubscribe. *)
Theorem subscribe_unsubscribe_round_trip w channelName notifyFn done1 done2 :
  plain w →
  _connected (conn w) = true →
  channelName ≠ "" →
  channelName ≠ "__proto__" →
  _subscribers (conn w) !! channelName = None →
  let w1 := exec (subscribeChannel (Some channelName) (Some notifyFn) done1)
                 w in
  let w2 := exec (unsubscribeChannel (Some channelName) done2) w1 in
  conn w2 = conn w ∧
  calls w2 = calls w ∧
  ∃ rq1 rq2,
    outbox w2 = (outbox w ++ [rq1; rq2])%list ∧
    listeners rq1 = OnSubscribe channelName done1 ∧
    listeners rq2 = OnUnsubscribe done2.
Proof.
  intros Hplain Hc Hne Hproto Hnone. unfold exec.
  rewrite subscribeChannel_valid by done. simpl.
  rewrite unsubscribeChannel_connected by done. simpl.
  split; [|split; [done|]].
  - rewrite delete_insert_id by done. by destruct (conn w).
  - eexists _, _. split; [by rewrite <- app_assoc|done].
Qed.

Lemma subscribe_unsubscribe_round_trip_witness :
  conn (exec (unsubscribeChannel (Some "test") None)
          (exec (subscribeChannel (Some "test") (Some (Fn 1)) None)
                example_connected))
    = conn example_connected.
Proof.
  apply (subscribe_unsubscribe_round_trip example_connected "test" (Fn 1)
           None None);
    [split; reflexivity|reflexivity|discriminate|discriminate|
     vm_compute; reflexivity].
Defined.

(** X14: A reply leaves the connection as it is unless it is a rejecting reply
    to a subscribe request: replies to create, unsubscribe and publish
    requests, and a 200 or a 304 to a subscribe request, change nothing but
    the call log. *)
Theorem reply_keeps_connection h r v :
  (∀ channelName done, h = OnSubscribe channelName done → ¬ rejects r) →
  conn (exec (fire h r) v) = conn v ∧ outbox (exec (fire h r) v) = outbox v.
Proof.
  intros Hok. split;
    [|by destruct (fire_calls h r v) as (args & _ & Hout & _)].
  destruct h as [done|k done|done|done], r as [status|code]; simpl;
    rewrite ?_handleResponse_conn, ?call_done_conn; try reflexivity.
  - rewrite exec_bind.
    destruct (Z.eqb_spec status 200) as [->|H200]; simpl;
      [by rewrite _handleResponse_conn|].
    destruct (Z.eqb_spec status 304) as [->|H304]; simpl;
      [by rewrite _handleResponse_conn|].
    by destruct (Hok k done eq_refl).
  - by destruct (Hok k done eq_refl).
Qed.

Lemma reply_keeps_connection_witness :
  conn (exec (fire (OnSubscribe "test" (Some (Fn 2))) (Response 304))
             example_subscribed)
    = conn example_subscribed.
Proof.
  apply (reply_keeps_connection (OnSubscribe "test" (Some (Fn 2)))
           (Response 304) example_subscribed).
  intros _ _ _ [_ H]. by apply H.
Defined.

(** X15: A late rejection cancels a newer subscription.  On a routing table
    that is a dictionary, subscribe to a channel (other than '__proto__'),
    unsubscribe, subscribe to it again: the first subscribe request is still
    in the outbox, and when a rejecting reply to it arrives, its listeners
    delete the entry of the channel, which by then is the second
    subscription; messages for the channel are answered with 400 from then
    on. *)
Theorem late_rejection_cancels_resubscription
    w channelName notifyFn1 notifyFn2 done1 done2 done3 r :
  plain w →
  _connected (conn w) = true →
  channelName ≠ "" →
  channelName ≠ "__proto__" →
  _subscribers (conn w) !! channelName = None →
  rejects r →
  let w1 := exec (subscribeChannel (Some channelName) (Some notifyFn1) done1)
                 w in
  let w2 := exec (unsubscribeChannel (Some channelName) done2) w1 in
  let w3 := exec (subscribeChannel (Some channelName) (Some notifyFn2) done3)
                 w2 in
  ∃ rq1,
    outbox w1 = (outbox w ++ [rq1])%list ∧
    rq1 ∈ outbox w3 ∧
    _subscribers (conn w3) !! channelName = Some notifyFn2 ∧
    let w4 := exec (fire (listeners rq1) r) w3 in
    step w3 w4 ∧
    _subscribers (conn w4) !! channelName = None ∧
    ∀ req res,
      channel_of req = channelName →
      _handleMessage req res w4 = (Return (mkRes 400 (S (ended res))), w4).
Proof.
  intros Hplain Hc Hne Hproto Hnone Hr. unfold exec at 1 2 3.
  rewrite subscribeChannel_valid by done. simpl.
  rewrite unsubscribeChannel_connected by done. simpl.
  assert (delete channelName
            (<[channelName := notifyFn1]> (_subscribers (conn w)))
          = _subscribers (conn w)) as Hback by by apply delete_insert_id.
  rewrite subscribeChannel_valid; simpl;
    [|destruct Hplain; split; simpl; by rewrite ?Hback|done|done|done
     |apply lookup_delete_eq].
  rewrite Hback.
  eexists. split; [reflexivity|].
  set (rq1 := mkRequest _ _ (OnSubscribe channelName done1)).
  set (w3 := mkWorld _ _ _).
  assert (rq1 ∈ outbox w3) as Hin.
  { simpl. rewrite !elem_of_app. left. left. right. constructor. }
  split; [done|]. split; [apply lookup_insert_eq|].
  assert (conn (exec (fire (listeners rq1) r) w3)
          = set_subscribers
              (delete channelName
                 (<[channelName := notifyFn2]> (_subscribers (conn w))))
              (conn w)) as Hconn.
  { subst rq1. destruct r as [status|code]; simpl in *.
    - destruct Hr as [H200%Z.eqb_neq H304%Z.eqb_neq].
      rewrite exec_bind, H200, H304. simpl.
      by rewrite _handleResponse_conn.
    - rewrite exec_bind. simpl. by rewrite call_done_conn. }
  rewrite delete_insert_id in Hconn by done.
  rewrite set_subscribers_id in Hconn.
  cbv zeta. split; [by apply (step_reply rq1 r w3)|].
  split; [by rewrite Hconn|]. intros req res Hch.
  destruct Hplain as [Hno _].
  rewrite _handleMessage_unrouted; rewrite Hconn; [by rewrite Hc|done|].
  by rewrite Hch.
Qed.

Lemma late_rejection_cancels_resubscription_witness :
  ∃ rq1,
    outbox (exec (subscribeChannel (Some "test") (Some (Fn 1)) None)
                 example_connected)
      = (outbox example_connected ++ [rq1])%list ∧
    rq1 ∈ outbox
            (exec (subscribeChannel (Some "test") (Some (Fn 7)) None)
               (exec (unsubscribeChannel (Some "test") None)
                  (exec (subscribeChannel (Some "test") (Some (Fn 1)) None)
                        example_connected))) ∧
    _subscribers
      (conn (exec (subscribeChannel (Some "test") (Some (Fn 7)) None)
               (exec (unsubscribeChannel (Some "test") None)
                  (exec (subscribeChannel (Some "test") (Some (Fn 1)) None)
                        example_connected))))
      !! "test" = Some (Fn 7) ∧
    let w4 :=
      exec (fire (listeners rq1) (Response 500))
        (exec (subscribeChannel (Some "test") (Some (Fn 7)) None)
           (exec (unsubscribeChannel (Some "test") None)
              (exec (subscribeChannel (Some "test") (Some (Fn 1)) None)
                    example_connected))) in
    step (exec (subscribeChannel (Some "test") (Some (Fn 7)) None)
            (exec (unsubscribeChannel (Some "test") None)
               (exec (subscribeChannel (Some "test") (Some (Fn 1)) None)
                     example_connected))) w4 ∧
    _subscribers (conn w4) !! "test" = None ∧
    ∀ req res,
      channel_of req = "test" →
      _handleMessage req res w4 = (Return (mkRes 400 (S (ended res))), w4).
Proof.
  apply (late_rejection_cancels_resubscription example_connected "test"
           (Fn 1) (Fn 7) None None None (Response 500));
    [split; reflexivity|reflexivity|discriminate|discriminate|
     vm_compute; reflexivity|split; discriminate].
Defined.


(** X16: [disconnect] forgets every subscription: when the prototype of the
    routing table was never replaced, after [disconnect] and a new [connect]
    the connection is connected with an empty routing table, and
    [subscribeChannel] returns for every non-empty channel name, the ones
    subscribed before included. *)
Theorem reconnect_forgets_subscriptions
    w done1 done2 channelName notifyFn done3 :
  reachable w →
  _subscribers_proto (conn w) = None →
  _connected (conn w) = true →
  channelName ≠ "" →
  let w2 := exec (connect done2) (exec (disconnect done1) w) in
  _connected (conn w2) = true ∧
  _subscribers (conn w2) = ∅ ∧
  (subscribeChannel (Some channelName) (Some notifyFn) done3 w2).1
    = Return ().
Proof.
  intros [Hkeys _]%reachable_consistent Hproto Hc Hne. unfold exec.
  rewrite disconnect_connected by done. simpl.
  assert (∀ v, _connected (conn v) = false →
               connect done2 v
                 = (Return (),
                    mkWorld (set_connected true (conn v)) (outbox v)
                      (calls v ++ done_calls done2 [VNull; VBool true])))
    as Hcon.
  { intros v Hv. unfold connect. run_monad. rewrite Hv.
    destruct done2; simpl; [done|]. by rewrite app_nil_r. }
  rewrite Hcon by done. simpl. do 2 (split; [done|]).
  set (w2 := mkWorld _ _ _).
  destruct (subscribeChannel_outcome channelName notifyFn done3 w2)
    as [Hiff _]; [done|done|].
  apply Hiff. unfold answers, assignable, hasOwnProperty. simpl.
  rewrite Hproto, !lookup_empty.
  rewrite (bool_decide_eq_false_2 (is_Some None)) by (by intros [? ?]).
  by rewrite orb_true_r.
Qed.

Lemma reconnect_forgets_subscriptions_witness :
  (subscribeChannel (Some "test") (Some (Fn 8)) None
     (exec (connect None) (exec (disconnect None) example_subscribed))).1
    = Return ().
Proof.
  apply (reconnect_forgets_subscriptions example_subscribed None None "test"
           (Fn 8) None);
    [apply example_subscribed_reachable|reflexivity|reflexivity|discriminate].
Defined.

(** ** Options of [createChannel] *)

Lemma options_type options :
  get_prop (if truthy options then options else VObj []) "type"
    = get_prop options "type".
Proof. by destruct options as [| |[]|n|s|e|fields]; simpl; try case_match. Qed.

(** X17: A valid [createChannel] sends one request to '/channel' whose body
    carries the name and, as type, the [type] property of the options:
    [undefined] when the options are missing, are no object or have no such
    property.  Missing options never make the call throw. *)
Theorem createChannel_sends_type w name options done :
  _connected (conn w) = true →
  name ≠ "" →
  createChannel (Some name) options done w
    = (Return (),
       mkWorld (conn w)
         (outbox w ++ [mkRequest (_baseUrl (conn w) +:+ "/channel")
            (VObj [("name", VStr name); ("type", get_prop options "type")])
            (OnCreate done)])
         (calls w)).
Proof.
  intros Hc Hne. unfold createChannel. run_monad. rewrite Hc. simpl.
  destruct name as [|a s]; [done|]. by rewrite options_type.
Qed.

Lemma createChannel_sends_type_witness :
  createChannel (Some "test") VNull (Some (Fn 9)) example_connected
    = (Return (),
       mkWorld (conn example_connected)
         (outbox example_connected
            ++ [mkRequest (_baseUrl (conn example_connected) +:+ "/channel")
                  (VObj [("name", VStr "test"); ("type", VUndefined)])
                  (OnCreate (Some (Fn 9)))])
         (calls example_connected)).
Proof.
  apply (createChannel_sends_type example_connected "test" VNull
           (Some (Fn 9))); [reflexivity|discriminate].
Defined.

(** ** The routing table as a dictionary *)

(** X18: On a connected connection whose routing table has the built-in
    membership test, the dispatcher addresses a message to the part of the
    request path after its last slash.  When that name is no key of the
    routing table the response gets status 400 and is ended, and nothing is
    called; when it is a key, the callback stored under it, and nothing else,
    is called once with the body of the request. *)
Theorem dispatch_connected w req res :
  _subscribers (conn w) !! "hasOwnProperty" = None →
  _connected (conn w) = true →
  (free_of "/" (channel_of req) ∧
   (req_url req = channel_of req ∨
    ∃ p, req_url req = p +:+ "/" +:+ channel_of req)) ∧
  (_subscribers (conn w) !! channel_of req = None →
   _handleMessage req res w = (Return (mkRes 400 (S (ended res))), w)) ∧
  (∀ notifyFn,
     _subscribers (conn w) !! channel_of req = Some notifyFn →
     _handleMessage req res w
       = (Return res,
          mkWorld (conn w) (outbox w)
                  (calls w ++ [Call notifyFn [req_body req]]))).
Proof.
  intros Hno Hc. split; [|split].
  - unfold channel_of.
    destruct (pop_split "/" (req_url req)) as (x & -> & Hfree & Hurl).
    by split.
  - intros Hnone. rewrite _handleMessage_unrouted by done. by rewrite Hc.
  - intros f Hf. rewrite (_handleMessage_routed _ _ _ f) by done.
    by rewrite Hc.
Qed.

Lemma dispatch_connected_witness :
  _handleMessage example_message example_response example_subscribed
    = (Return example_response,
       mkWorld (conn example_subscribed) (outbox example_subscribed)
         (calls example_subscribed
            ++ [Call (Fn 1) [VObj [("pizza", VStr "yum yum")]]])).
Proof.
  apply (dispatch_connected example_subscribed example_message
           example_response);
    [vm_compute; reflexivity|reflexivity|vm_compute; reflexivity].
Defined.

(** X19: On a routing table that is a dictionary, a valid [subscribeChannel]
    (for a name other than '__proto__') returns with the notify callback in
    the routing table and its request in the outbox.  When the reply to that
    request is not a 200 or a 304, or is a transport failure, the listeners
    delete the entry of the channel, in whatever world the reply arrives, and
    call the completion callback once. *)
Theorem subscribe_provisional_rollback w channelName notifyFn done :
  plain w →
  _connected (conn w) = true →
  channelName ≠ "" →
  channelName ≠ "__proto__" →
  _subscribers (conn w) !! channelName = None →
  ∃ rq,
    subscribeChannel (Some channelName) (Some notifyFn) done w
      = (Return (),
         mkWorld
           (set_subscribers (<[channelName := notifyFn]> (_subscribers (conn w)))
                            (conn w))
           (outbox w ++ [rq]) (calls w)) ∧
    ∀ r v, rejects r →
      let rolled_back :=
        mkWorld (set_subscribers (delete channelName (_subscribers (conn v)))
                                 (conn v))
                (outbox v) (calls v) in
      _subscribers (conn rolled_back) !! channelName = None ∧
      ∃ args, fire (listeners rq) r v = call_done done args rolled_back.
Proof.
  intros Hplain Hc Hne Hproto Hnone.
  eexists. split; [by apply subscribeChannel_valid|].
  intros r v Hr. split; [apply lookup_delete_eq|].
  destruct r as [status|code]; simpl in *.
  - destruct Hr as [H200 H304].
    apply Z.eqb_neq in H200, H304. rewrite H200, H304. simpl.
    unfold _handleResponse. rewrite H200, H304.
    destruct (status =? 400); by eexists.
  - by eexists.
Qed.

Lemma subscribe_provisional_rollback_witness :
  ∃ rq,
    subscribeChannel (Some "test") (Some (Fn 1)) (Some (Fn 2)) example_connected
      = (Return (),
         mkWorld
           (set_subscribers
              (<["test" := Fn 1]> (_subscribers (conn example_connected)))
              (conn example_connected))
           (outbox example_connected ++ [rq]) (calls example_connected)) ∧
    ∀ r v, rejects r →
      let rolled_back :=
        mkWorld (set_subscribers (delete "test" (_subscribers (conn v)))
                                 (conn v))
                (outbox v) (calls v) in
      _subscribers (conn rolled_back) !! "test" = None ∧
      ∃ args, fire (listeners rq) r v = call_done (Some (Fn 2)) args rolled_back.
Proof.
  apply (subscribe_provisional_rollback example_connected "test" (Fn 1)
           (Some (Fn 2)));
    [split; reflexivity|reflexivity|discriminate|discriminate|
     vm_compute; reflexivity].
Defined.

(** X20: A valid [unsubscribeChannel] deletes the channel from the routing
    table and sends one request.  The listeners of that request leave the
    connection as it is whatever the reply, so the channel is still no key
    after any reply; and when the membership test of the table is the
    built-in, a message addressed to the channel then gets status 400 and
    calls nothing. *)
Theorem unsubscribe_not_rolled_back w channelName done :
  _subscribers (conn w) !! "hasOwnProperty" = None →
  _connected (conn w) = true →
  channelName ≠ "" →
  ∃ rq,
    unsubscribeChannel (Some channelName) done w
      = (Return (),
         mkWorld (set_subscribers (delete channelName (_subscribers (conn w)))
                                  (conn w))
                 (outbox w ++ [rq]) (calls w)) ∧
    listeners rq = OnUnsubscribe done ∧
    (∀ r v, conn (exec (fire (listeners rq) r) v) = conn v) ∧
    ∀ r req res,
      channel_of req = channelName →
      let sent := exec (unsubscribeChannel (Some channelName) done) w in
      let replied := exec (fire (listeners rq) r) sent in
      _subscribers (conn replied) !! channelName = None ∧
      _handleMessage req res sent
        = (Return (mkRes 400 (S (ended res))), sent) ∧
      _handleMessage req res replied
        = (Return (mkRes 400 (S (ended res))), replied).
Proof.
  intros Hno Hc Hne.
  eexists. split; [by apply unsubscribeChannel_connected|].
  cbn [listeners].
  assert (∀ r v, conn (exec (fire (OnUnsubscribe done) r) v) = conn v)
    as Hsame.
  { intros [status|code] v; simpl;
      [apply _handleResponse_conn|apply call_done_conn]. }
  do 2 (split; [done|]). intros r req res Hch.
  assert (∃ sent, exec (unsubscribeChannel (Some channelName) done) w = sent ∧
                  _connected (conn sent) = true ∧
                  _subscribers (conn sent) !! "hasOwnProperty" = None ∧
                  _subscribers (conn sent) !! channel_of req = None)
    as (sent & -> & Hsent & Hno' & Hgone).
  { eexists. split; [unfold exec; by rewrite unsubscribeChannel_connected|].
    split; [done|]. simpl. split.
    - destruct (decide (channelName = "hasOwnProperty")) as [->|?];
        [apply lookup_delete_eq|by rewrite lookup_delete_ne].
    - rewrite Hch. apply lookup_delete_eq. }
  split; [|split].
  - rewrite Hsame. by rewrite <- Hch.
  - rewrite _handleMessage_unrouted by done. by rewrite Hsent.
  - rewrite _handleMessage_unrouted by (by rewrite Hsame).
    by rewrite Hsame, Hsent.
Qed.

Lemma unsubscribe_not_rolled_back_witness :
  ∃ rq,
    unsubscribeChannel (Some "test") (Some (Fn 6)) example_subscribed
      = (Return (),
         mkWorld (set_subscribers
                    (delete "test" (_subscribers (conn example_subscribed)))
                    (conn example_subscribed))
                 (outbox example_subscribed ++ [rq])
                 (calls example_subscribed)) ∧
    listeners rq = OnUnsubscribe (Some (Fn 6)) ∧
    (∀ r v, conn (exec (fire (listeners rq) r) v) = conn v) ∧
    ∀ r req res,
      channel_of req = "test" →
      let sent :=
        exec (unsubscribeChannel (Some "test") (Some (Fn 6)))
             example_subscribed in
      let replied := exec (fire (listeners rq) r) sent in
      _subscribers (conn replied) !! "test" = None ∧
      _handleMessage req res sent
        = (Return (mkRes 400 (S (ended res))), sent) ∧
      _handleMessage req res replied
        = (Return (mkRes 400 (S (ended res))), replied).
Proof.
  apply (unsubscribe_not_rolled_back example_subscribed "test" (Some (Fn 6)));
    [vm_compute; reflexivity|reflexivity|discriminate].
Defined.

Lemma subscribeChannel_conn channelName notifyFn done w :
  let w' := exec (subscribeChannel channelName notifyFn done) w in
  conn w' = conn w ∨
  (∃ f, channelName = Some "__proto__" ∧ notifyFn = Some f ∧
        conn w' = set_subscribers_proto (Some f) (conn w)) ∨
  (∃ k f, channelName = Some k ∧ notifyFn = Some f ∧
          k ≠ "__proto__" ∧
          conn w' = set_subscribers (<[k := f]> (_subscribers (conn w)))
                                    (conn w)).
Proof.
  cbv zeta.
  destruct (_connected (conn w)) eqn:Hc;
    [|left; unfold subscribeChannel; run_monad; by rewrite Hc].
  destruct channelName as [k|];
    [|left; unfold subscribeChannel; run_monad; by rewrite Hc].
  destruct (decide (k = "")) as [->|Hk];
    [left; unfold subscribeChannel; run_monad; by rewrite Hc|].
  destruct notifyFn as [f|];
    [|left; unfold subscribeChannel; run_monad; rewrite Hc; by destruct k].
  unfold exec. rewrite subscribeChannel_connected by done.
  set (asked := mkWorld _ _ _).
  destruct (answers _ _); [by left|].
  unfold mbind, M_bind.
  destruct (assign_subscriber_cases k f asked)
    as [[-> ->]|[[? ->]|(_ & _ & _ & _ & ->)]]; simpl.
  - right. left. by exists f.
  - right. right. by exists k, f.
  - by left.
Qed.

Lemma unsubscribeChannel_conn channelName done w :
  let w' := exec (unsubscribeChannel channelName done) w in
  conn w' = conn w ∨
  ∃ k, conn w' = set_subscribers (delete k (_subscribers (conn w))) (conn w).
Proof.
  cbv zeta. unfold unsubscribeChannel. run_monad.
  destruct (_connected (conn w)); simpl; [|by left].
  destruct channelName as [[|a s]|]; simpl; eauto.
Qed.

Lemma fire_conn h r w :
  let w' := exec (fire h r) w in
  conn w' = conn w ∨
  ∃ k, conn w' = set_subscribers (delete k (_subscribers (conn w))) (conn w).
Proof.
  cbv zeta.
  destruct h as [done|k done|done|done], r as [status|code]; simpl;
    rewrite ?_handleResponse_conn, ?call_done_conn; try (by left).
  - rewrite exec_bind.
    destruct (negb (status =? 200) && negb (status =? 304)); simpl;
      rewrite _handleResponse_conn; [right; by exists k|by left].
  - rewrite exec_bind. simpl. rewrite call_done_conn. right. by exists k.
Qed.

Lemma connect_subscribers done w :
  _subscribers (conn (exec (connect done) w)) = _subscribers (conn w) ∧
  _subscribers_proto (conn (exec (connect done) w))
    = _subscribers_proto (conn w).
Proof.
  unfold connect. run_monad.
  destruct (_connected (conn w)); simpl; [done|]. by destruct done.
Qed.

Lemma disconnect_subscribers done w :
  consistent w →
  (_subscribers (conn (exec (disconnect done) w)) = _subscribers (conn w) ∨
   _subscribers (conn (exec (disconnect done) w)) = ∅) ∧
  _subscribers_proto (conn (exec (disconnect done) w))
    = _subscribers_proto (conn w).
Proof.
  intros [Hkeys _].
  destruct (_connected (conn w)) eqn:Hc.
  - unfold exec. rewrite disconnect_connected by done. simpl. by split; [right|].
  - unfold disconnect. run_monad. rewrite Hc. simpl. by split; [left|].
Qed.

Lemma step_no_proto_key w w' :
  consistent w → step w w' →
  _subscribers (conn w) !! "__proto__" = None →
  _subscribers (conn w') !! "__proto__" = None.
Proof.
  intros Hw Hstep Hnone.
  assert (∀ k, delete k (_subscribers (conn w)) !! "__proto__" = None)
    as Hdel by (intros k; apply lookup_delete_None; by right).
  destruct Hstep as [o w|rq r w _|req res w].
  - destruct o as [d|d|name options d|ch fn d|ch d|ch content d]; simpl.
    + by destruct (connect_subscribers d w) as [-> _].
    + destruct (disconnect_subscribers d w Hw) as [[-> | ->] _];
        [done|apply lookup_empty].
    + by rewrite createChannel_conn.
    + destruct (subscribeChannel_conn ch fn d w)
        as [->|[(f & _ & _ & ->)|(k & f & _ & _ & Hk & ->)]]; simpl; try done.
      by rewrite lookup_insert_ne.
    + destruct (unsubscribeChannel_conn ch d w) as [->|[k ->]]; simpl; auto.
    + by rewrite publishMessage_conn.
  - destruct (fire_conn (listeners rq) r w) as [->|[k ->]]; simpl; auto.
  - by rewrite _handleMessage_conn.
Qed.

(** X21: The routing table never has an own property named '__proto__': in
    every reachable world a lookup of that name in the table's own
    properties finds nothing, whatever was subscribed. *)
Theorem proto_never_own w :
  reachable w → _subscribers (conn w) !! "__proto__" = None.
Proof.
  intros (w0 & Hnew & Hrun).
  assert (consistent w0 ∧ _subscribers (conn w0) !! "__proto__" = None)
    as Hinv.
  { split; [by apply constructed_consistent|].
    destruct Hnew as (u & config & c & Hnew & ->).
    unfold new_Connection in Hnew. destruct config as [cfg|]; [|done].
    destruct (falsy_string (serverUrl cfg)); [done|].
    injection Hnew as <-. apply lookup_empty. }
  clear Hnew. induction Hrun as [|w1 w2 w3 Hstep _ IH]; [by destruct Hinv|].
  destruct Hinv as [Hc Hp]. apply IH. split.
  - by apply (step_consistent w1).
  - by apply (step_no_proto_key w1).
Qed.

Lemma proto_never_own_witness :
  _subscribers (conn example_proto) !! "__proto__" = None.
Proof. apply proto_never_own, example_proto_reachable. Defined.

(** X22: A routing table that is a dictionary stays one as long as no call
    subscribes to '__proto__' or to 'hasOwnProperty': every other call,
    every reply and every inbound message leave the membership test the
    built-in and the prototype [Object.prototype]. *)
Theorem plain_kept w :
  consistent w →
  plain w →
  (∀ o, ordinary o → plain (exec (run o) w)) ∧
  (∀ h r, plain (exec (fire h r) w)) ∧
  (∀ req res, plain (exec (_handleMessage req res) w)).
Proof.
  intros Hw [Hno Hproto].
  assert (∀ k, delete k (_subscribers (conn w)) !! "hasOwnProperty" = None)
    as Hdel by (intros k; apply lookup_delete_None; by right).
  split; [|split].
  - intros o Ho. unfold plain.
    destruct o as [d|d|name options d|ch fn d|ch d|ch content d]; simpl.
    + by destruct (connect_subscribers d w) as [-> ->].
    + destruct (disconnect_subscribers d w Hw) as [[-> | ->] ->];
        [done|by rewrite lookup_empty].
    + by rewrite createChannel_conn.
    + destruct (subscribeChannel_conn ch fn d w)
        as [->|[(f & -> & _ & ->)|(k & f & -> & _ & Hk & ->)]]; simpl;
        try done.
      * by destruct Ho.
      * destruct Ho as [_ Hh]. by rewrite lookup_insert_ne.
    + destruct (unsubscribeChannel_conn ch d w) as [->|[k ->]]; simpl; auto.
    + by rewrite publishMessage_conn.
  - intros h r. unfold plain.
    destruct (fire_conn h r w) as [->|[k ->]]; simpl; auto.
  - intros req res. unfold plain. by rewrite _handleMessage_conn.
Qed.

Lemma plain_kept_witness : plain example_subscribed.
Proof.
  apply (proj1 (plain_kept example_connected
                  (reachable_consistent _ example_connected_reachable)
                  (conj eq_refl eq_refl))
           (SubscribeChannel (Some "test") (Some (Fn 1)) (Some (Fn 2)))).
  split; discriminate.
Defined.

(** X23: Once a function is the prototype of the routing table,
    [subscribeChannel] for a new channel named 'length', 'name', 'arguments'
    or 'caller' throws a [TypeError] at the assignment: the table inherits
    that property read-only.  The connection is left as it was and no
    request is sent.  Neither [disconnect] nor [connect] restores the
    prototype. *)
Theorem subscribe_read_only_name w channelName notifyFn done :
  _connected (conn w) = true →
  is_Some (_subscribers_proto (conn w)) →
  _subscribers (conn w) !! "hasOwnProperty" = None →
  _subscribers (conn w) !! channelName = None →
  channelName ∈ read_only_of_functions →
  subscribeChannel (Some channelName) (Some notifyFn) done w
    = (Throw TypeError, w).
Proof.
  intros Hc [p Hp] Hno Hnone Hro.
  assert (channelName ≠ "" ∧ channelName ≠ "__proto__") as [Hne Hk].
  { unfold read_only_of_functions in Hro.
    split; intros ->;
      repeat (apply elem_of_cons in Hro as [Hro|Hro]; [done|]);
      by apply elem_of_nil in Hro. }
  apply hasOwnProperty_false in Hnone.
  rewrite subscribeChannel_connected by done.
  destruct (answers_plain (conn w) channelName Hno) as [-> ->].
  rewrite Hnone, app_nil_r, world_eta.
  unfold mbind, M_bind, assign_subscriber. run_monad.
  rewrite bool_decide_eq_false_2 by done. rewrite Hnone, Hp. simpl.
  by rewrite bool_decide_eq_true_2.
Qed.

Lemma subscribe_read_only_name_witness :
  subscribeChannel (Some "name") (Some (Fn 8)) (Some (Fn 9))
    (exec (connect None) (exec (disconnect None) example_proto))
    = (Throw TypeError,
       exec (connect None) (exec (disconnect None) example_proto)).
Proof.
  apply (subscribe_read_only_name
           (exec (connect None) (exec (disconnect None) example_proto))
           "name" (Fn 8) (Some (Fn 9)));
    [reflexivity|by eexists|vm_compute; reflexivity|vm_compute; reflexivity|].
  unfold read_only_of_functions. right. left.
Defined.

(** X24: While a channel named 'hasOwnProperty' is subscribed, its callback
    is the membership test of the dispatcher.  Every inbound message calls it
    with the name of the addressed channel; when it returns a falsy value
    (as a callback without return value does) the message is answered with
    status 400 and reaches no other callback, whether or not its channel is
    subscribed. *)
Theorem shadowed_membership_test w h req res :
  _subscribers (conn w) !! "hasOwnProperty" = Some h →
  truthy (returned h [VStr (channel_of req)]) = false →
  _handleMessage req res w
    = (Return (res_end (res_status 400
         (if negb (_connected (conn w)) then res_end res else res))),
       mkWorld (conn w) (outbox w)
               (calls w ++ [Call h [VStr (channel_of req)]])).
Proof.
  intros Hh Hfalsy. rewrite _handleMessage_eq. cbv zeta.
  unfold answers, shadow_calls. by rewrite Hh, Hfalsy.
Qed.

Lemma shadowed_membership_test_witness :
  _handleMessage (mkReq "/spidymq/hasOwnProperty" VNull) example_response
                 example_shadowed
    = (Return (mkRes 400 1),
       mkWorld (conn example_shadowed) (outbox example_shadowed)
               (calls example_shadowed
                  ++ [Call (Fn 3) [VStr "hasOwnProperty"]])).
Proof.
  apply (shadowed_membership_test example_shadowed (Fn 3)
           (mkReq "/spidymq/hasOwnProperty" VNull) example_response);
    [vm_compute; reflexivity|reflexivity].
Defined.
